(** * Truck-trailer two-stage motion planning: a model of
    [rockit_examples/truck_trailer_multistage_2stages.py]

    The script builds a symbolic optimal-control problem (CasADi expressions
    collected by rockit stages), hands it to a solver, resamples the solution
    on a fixed-step grid, writes the result and optionally steps a simulator.
    The model keeps that shape: numbers are an interface with three
    implementations (binary64, exact rationals, real numbers), symbolic
    expressions are trees over those numbers, stages live in a store owned by
    the problem object, and the stage methods are state transformers. *)

From Stdlib Require Import ZArith QArith Qround Reals Lra Lqa Lia List String.
From Stdlib Require Import PrimFloat FloatOps SpecFloat Uint63.
From stdpp Require Import base list.
Import ListNotations.

Set Warnings "-register-all,-inexact-float".

(* ===================================================================== *)
(** ** Numbers *)
(* ===================================================================== *)

(** Python and NumPy arithmetic on scalars: literals, the four operations and
    unary minus.  [of_Z] is an integer literal, [of_Q] a decimal literal
    ([of_Q (2 # 10)] is the literal [.2]). *)
Class Scalar (A : Type) := {
  of_Z : Z -> A;
  of_Q : Q -> A;
  add : A -> A -> A;
  sub : A -> A -> A;
  mul : A -> A -> A;
  div : A -> A -> A;
  neg : A -> A
}.

(** [numpy.sin], [numpy.cos] and [numpy.tan]: they apply to plain numbers and
    to symbolic expressions alike. *)
Class Trig (A : Type) := {
  sin : A -> A;
  cos : A -> A;
  tan : A -> A
}.

(** [numpy.pi]. *)
Class HasPi (A : Type) := pi : A.

(** Comparisons of numbers, and the ceiling to an index that [numpy.arange]
    takes of its length; [ceil] is [None] where NumPy raises (NaN, infinity,
    a value outside the index range). *)
Class Order (A : Type) := {
  leb : A -> A -> bool;
  ltb : A -> A -> bool;
  eqb : A -> A -> bool;
  ceil : A -> option Z
}.

Declare Scope num_scope.
Delimit Scope num_scope with num.
Notation "a + b" := (add a b) : num_scope.
Notation "a - b" := (sub a b) : num_scope.
Notation "a * b" := (mul a b) : num_scope.
Notation "a / b" := (div a b) : num_scope.
Notation "- a" := (neg a) : num_scope.

Definition num_le {A} {OA : Order A} (a b : A) : Prop := leb a b = true.
Definition num_lt {A} {OA : Order A} (a b : A) : Prop := ltb a b = true.

(** *** binary64, the arithmetic the script runs on *)

Module Binary64.

Definition float_of_Z (z : Z) : float :=
  match z with
  | Z0 => PrimFloat.zero
  | Zpos _ => PrimFloat.of_uint63 (Uint63.of_Z z)
  | Zneg p => PrimFloat.opp (PrimFloat.of_uint63 (Uint63.of_Z (Zpos p)))
  end.

(** The correctly rounded quotient of two small integers is the double
    nearest to the decimal literal. *)
Definition float_of_Q (q : Q) : float :=
  PrimFloat.div (float_of_Z (Qnum q)) (float_of_Z (Zpos (Qden q))).

(** [npy_ceil] followed by the conversion to [npy_intp]. *)
Definition float_ceil (x : float) : option Z :=
  match Prim2SF x with
  | S754_zero _ => Some 0%Z
  | S754_finite s m e =>
      let c := match e with
               | Z0 => if s then Zneg m else Zpos m
               | Zpos _ => ((if s then Zneg m else Zpos m) * 2 ^ e)%Z
               | Zneg k =>
                   if s then (- (Zpos m / 2 ^ Zpos k))%Z
                   else (- (Zneg m / 2 ^ Zpos k))%Z
               end in
      if ((- 2 ^ 63 <=? c) && (c <? 2 ^ 63))%Z then Some c else None
  | S754_infinity _ => None
  | S754_nan => None
  end.

#[export] Instance float_scalar : Scalar float := {|
  of_Z := float_of_Z;
  of_Q := float_of_Q;
  add := PrimFloat.add;
  sub := PrimFloat.sub;
  mul := PrimFloat.mul;
  div := PrimFloat.div;
  neg := PrimFloat.opp
|}.

#[export] Instance float_order : Order float := {|
  leb := PrimFloat.leb;
  ltb := PrimFloat.ltb;
  eqb := PrimFloat.eqb;
  ceil := float_ceil
|}.

(** [numpy.pi = 3.141592653589793]. *)
#[export] Instance float_pi : HasPi float := 0x1.921fb54442d18p+1%float.

End Binary64.

(** *** Exact rationals *)

Module Exact.

#[export] Instance Q_scalar : Scalar Q := {|
  of_Z := inject_Z;
  of_Q := fun q => q;
  add := Qplus;
  sub := Qminus;
  mul := Qmult;
  div := Qdiv;
  neg := Qopp
|}.

Definition Qlt_bool (a b : Q) : bool := negb (Qle_bool b a).

#[export] Instance Q_order : Order Q := {|
  leb := Qle_bool;
  ltb := Qlt_bool;
  eqb := Qeq_bool;
  ceil := fun q => Some (Qceiling q)
|}.

End Exact.

(** *** Real numbers *)

Module Ideal.

#[export] Instance R_scalar : Scalar R := {|
  of_Z := IZR;
  of_Q := Q2R;
  add := Rplus;
  sub := Rminus;
  mul := Rmult;
  div := Rdiv;
  neg := Ropp
|}.

#[export] Instance R_trig : Trig R := {|
  sin := Rtrigo_def.sin;
  cos := Rtrigo_def.cos;
  tan := Rtrigo1.tan
|}.

#[export] Instance R_pi : HasPi R := Rtrigo1.PI.

#[export] Instance R_order : Order R := {|
  leb := fun a b => if Rle_dec a b then true else false;
  ltb := fun a b => if Rlt_dec a b then true else false;
  eqb := fun a b => if Req_dec_T a b then true else false;
  ceil := fun a => Some (1 - up (- a))%Z
|}.

End Ideal.

(* ===================================================================== *)
(** ** [numpy.arange] *)
(* ===================================================================== *)

Section Arange.
Context {A : Type} {SA : Scalar A} {OA : Order A}.

(** The [i]-th entry: the first two are stored as [start] and
    [start + step], the others are filled as [start + i * delta] with
    [delta] the difference of those two. *)
Definition arange_item (start step : A) (i : nat) : A :=
  match i with
  | O => start
  | S O => (start + step)%num
  | _ => (start + of_Z (Z.of_nat i) * ((start + step) - start))%num
  end.

(** [numpy.arange(start, stop, step)]: [ceil((stop - start) / step)]
    entries, none when that is not positive. *)
Definition arange (start stop step : A) : option (list A) :=
  match ceil ((stop - start) / step)%num with
  | Some n => Some (map (arange_item start step) (seq 0 (Z.to_nat n)))
  | None => None
  end.

(** Sampling period of the control grid, [Ts = 0.1]. *)
Definition Ts : A := of_Q (1 # 10).

(** [t1_ctrl], [t2_ctrl] and their concatenation [t_ctrl]. *)
Definition t1_ctrl (t1_sol : A) : option (list A) :=
  arange (of_Q 0) t1_sol Ts.

Definition t2_ctrl (t1_sol t2_sol : A) : option (list A) :=
  arange t1_sol t2_sol Ts.

Definition t_ctrl (t1_sol t2_sol : A) : option (list A) :=
  match t1_ctrl t1_sol, t2_ctrl t1_sol t2_sol with
  | Some a, Some b => Some (a ++ b)
  | _, _ => None
  end.

(** What the resampled time axis is claimed to be: it starts at the
    literal [0.], stays strictly below [stop] and strictly increases. *)
Definition spans (zero stop : A) (ts : list A) : Prop :=
  ts !! 0%nat = Some zero /\
  (forall i x, ts !! i = Some x -> num_lt x stop) /\
  (forall i x y, ts !! i = Some x -> ts !! S i = Some y -> num_lt x y).

End Arange.

(* ===================================================================== *)
(** ** Values, exceptions and the builder monad *)
(* ===================================================================== *)

(** Python values that end up in dictionaries: the solver options and the
    document written by [yaml.dump].  A dictionary keeps its items in
    insertion order. *)
Inductive value (A : Type) : Type :=
| VBool (b : bool)
| VStr (s : string)
| VNum (x : A)
| VArr (xs : list A)
| VDict (items : list (string * value A)).
Arguments VBool {A} _.
Arguments VStr {A} _.
Arguments VNum {A} _.
Arguments VArr {A} _.
Arguments VDict {A} _.

Definition keys {B} (items : list (string * B)) : list string :=
  map fst items.

(** [d[k]] on a list of items. *)
Fixpoint item {B} (k : string) (items : list (string * B)) : option B :=
  match items with
  | [] => None
  | (k', v) :: rest => if String.eqb k k' then Some v else item k rest
  end.

Definition get_item {A} (k : string) (d : value A) : option (value A) :=
  match d with
  | VDict items => item k items
  | _ => None
  end.

(** The keys of a dictionary, in order. *)
Definition dict_keys {A} (d : value A) : list string :=
  match d with
  | VDict items => keys items
  | _ => []
  end.

(** The arrays of a document, in the order of its items. *)
Fixpoint arrays_of {A} (v : value A) : list (list A) :=
  match v with
  | VArr xs => [xs]
  | VDict items =>
      (fix go (l : list (string * value A)) : list (list A) :=
         match l with
         | [] => []
         | (_, v') :: rest => arrays_of v' ++ go rest
         end) items
  | _ => []
  end.

(** The exceptions the script can end with. *)
Inductive exn : Type :=
| OSError (file : string)
| RuntimeError (what : string)
| ValueError
| IndexError.

(** What CasADi raises when the solver does not converge. *)
Definition SolverFailed : exn := RuntimeError "solver failed".

Inductive result (A : Type) : Type :=
| Ok (a : A)
| Raise (e : exn).
Arguments Ok {A} _.
Arguments Raise {A} _.

Definition result_bind {A B} (m : result A) (k : A -> result B) : result B :=
  match m with
  | Ok a => k a
  | Raise e => Raise e
  end.

Definition of_option {A} (e : exn) (o : option A) : result A :=
  match o with
  | Some a => Ok a
  | None => Raise e
  end.

(** State transformers that may fail: the calls on a stage or on the problem
    object mutate it and may raise. *)
Definition Build (S A : Type) : Type := S -> option (A * S).

Definition ret {S A} (a : A) : Build S A := fun s => Some (a, s).

Definition bind {S A B} (m : Build S A) (k : A -> Build S B) : Build S B :=
  fun s => match m s with
           | Some (a, s') => k a s'
           | None => None
           end.

Definition fail {S A} : Build S A := fun _ => None.

Definition gets {S A} (f : S -> A) : Build S A := fun s => Some (f s, s).

Definition modify {S} (f : S -> S) : Build S unit := fun s => Some (tt, f s).

Definition lift_option {S A} (o : option A) : Build S A :=
  match o with
  | Some a => ret a
  | None => fail
  end.

Declare Scope build_scope.
Delimit Scope build_scope with build.
Notation "x <- m ;; k" := (bind m (fun x => k))
  (at level 20, m at level 99, k at level 200, only parsing) : build_scope.
Notation "m ;; k" := (bind m (fun _ => k))
  (at level 100, k at level 200, only parsing, right associativity) : build_scope.

(** [for x in xs: body(x)]. *)
Fixpoint for_each {S A} (xs : list A) (body : A -> Build S unit) : Build S unit :=
  match xs with
  | [] => ret tt
  | x :: rest => bind (body x) (fun _ => for_each rest body)
  end.

(* ===================================================================== *)
(** ** CasADi expressions *)
(* ===================================================================== *)

(** Symbolic scalars.  [Sym] is a signal of a stage (a state or a control),
    [Var] a decision variable that does not depend on time (a free initial
    time or duration), [At tm e] the expression [e] taken at the time [tm]
    (what [at_t0] and [at_tf] return), and [Le], [Eq] are the relational
    nodes that [<=] and [==] build. *)
Inductive sx (A : Type) : Type :=
| Const (c : A)
| Sym (n : nat)
| Var (n : nat)
| Neg (a : sx A)
| Add (a b : sx A)
| Sub (a b : sx A)
| Mul (a b : sx A)
| Div (a b : sx A)
| Sin (a : sx A)
| Cos (a : sx A)
| Tan (a : sx A)
| Le (a b : sx A)
| Eq (a b : sx A)
| At (tm e : sx A).
Arguments Const {A} _.
Arguments Sym {A} _.
Arguments Var {A} _.
Arguments Neg {A} _.
Arguments Add {A} a b.
Arguments Sub {A} a b.
Arguments Mul {A} a b.
Arguments Div {A} a b.
Arguments Sin {A} _.
Arguments Cos {A} _.
Arguments Tan {A} _.
Arguments Le {A} a b.
Arguments Eq {A} a b.
Arguments At {A} tm e.

(** The operators and the NumPy functions are overloaded on expressions. *)
#[export] Instance sx_scalar {A} {SA : Scalar A} : Scalar (sx A) := {|
  of_Z := fun z => Const (of_Z z);
  of_Q := fun q => Const (of_Q q);
  add := Add;
  sub := Sub;
  mul := Mul;
  div := Div;
  neg := Neg
|}.

#[export] Instance sx_trig {A} : Trig (sx A) := {|
  sin := Sin;
  cos := Cos;
  tan := Tan
|}.

(** A solution: the value of every signal at every time and of every
    decision variable. *)
Record valuation (A : Type) : Type := {
  sig : nat -> A -> A;
  var : nat -> A
}.
Arguments sig {A} _ _ _.
Arguments var {A} _ _.

Section Eval.
Context {A : Type} {SA : Scalar A} {TA : Trig A} {OA : Order A}.

Definition of_bool (b : bool) : A := if b then of_Z 1 else of_Z 0.

(** The value of an expression at time [t]. *)
Fixpoint eval (g : valuation A) (t : A) (e : sx A) : A :=
  match e with
  | Const c => c
  | Sym n => sig g n t
  | Var n => var g n
  | Neg a => (- eval g t a)%num
  | Add a b => (eval g t a + eval g t b)%num
  | Sub a b => (eval g t a - eval g t b)%num
  | Mul a b => (eval g t a * eval g t b)%num
  | Div a b => (eval g t a / eval g t b)%num
  | Sin a => sin (eval g t a)
  | Cos a => cos (eval g t a)
  | Tan a => tan (eval g t a)
  | Le a b => of_bool (leb (eval g t a) (eval g t b))
  | Eq a b => of_bool (eqb (eval g t a) (eval g t b))
  | At tm a => eval g (eval g t tm) a
  end.

(** What a relational expression demands when it is given to
    [subject_to]: [lb <= (e <= ub)] is the two-sided bound. *)
Definition holds (g : valuation A) (t : A) (c : sx A) : Prop :=
  match c with
  | Le lb (Le e ub) =>
      num_le (eval g t lb) (eval g t e) /\ num_le (eval g t e) (eval g t ub)
  | Le a b => num_le (eval g t a) (eval g t b)
  | Eq a b => eval g t a = eval g t b
  | _ => False
  end.

(** [lb <= x <= ub] on numbers. *)
Definition between (lb x ub : A) : Prop := num_le lb x /\ num_le x ub.

(** All the entries of all the constraints of a list hold. *)
Definition all_hold (g : valuation A) (t : A) (cs : list (list (sx A))) : Prop :=
  forall c e, In c cs -> In e c -> holds g t e.

End Eval.

(** Column vectors of numbers, as [vertcat] builds them. *)
Definition vec2 (A : Type) : Type := (A * A)%type.
Definition vec3 (A : Type) : Type := (A * A * A)%type.
Definition vec4 (A : Type) : Type := (A * A * A * A)%type.

Section Linear.
Context {A : Type} {SA : Scalar A}.

Definition neg2 (n : vec2 A) : vec2 A := ((- fst n)%num, (- snd n)%num).

(** [a.T @ b] for two columns of height 2 and of height 3. *)
Definition dot2 (a b : vec2 A) : A := (fst a * fst b + snd a * snd b)%num.

Definition dot3 (a b : vec3 A) : A :=
  let '(a0, a1, a2) := a in
  let '(b0, b1, b2) := b in
  (a0 * b0 + a1 * b1 + a2 * b2)%num.

(** [vertcat(n, c)] of a column of height 2 and a scalar. *)
Definition vertcat21 (n : vec2 A) (c : A) : vec3 A := (fst n, snd n, c).

End Linear.

(** A column of numbers as a column of expressions. *)
Definition const3 {A} (col : vec3 A) : vec3 (sx A) :=
  let '(a, b, c) := col in (Const a, Const b, Const c).

(** [w.T @ phom]: one entry for each column of [w]. *)
Definition mtimes_T {A} {SA : Scalar A} (w : list (vec3 A)) (phom : vec3 (sx A))
  : list (sx A) :=
  map (fun col => dot3 (const3 col) phom) w.

(** [v <= 0] on a column: one inequality for each entry. *)
Definition le_zero {A} {SA : Scalar A} (v : list (sx A)) : list (sx A) :=
  map (fun e => Le e (Const (of_Z 0))) v.

(* ===================================================================== *)
(** ** rockit: stages and the problem object *)
(* ===================================================================== *)

(** [FreeTime(guess)], or a plain number for a fixed time. *)
Inductive time_spec (A : Type) : Type :=
| FreeTime (guess : A)
| FixedTime (t : A).
Arguments FreeTime {A} _.
Arguments FixedTime {A} _.

(** [MultipleShooting(N=N, M=M, intg=...)]. *)
Record MultipleShooting : Type := {
  ms_N : nat;
  ms_M : nat;
  ms_intg : string
}.

(** A stage: its time horizon, the signals it declared, the derivative
    recorded for each state, its path constraints (one entry for each
    [subject_to] call, a column of relational expressions), its objective
    terms and its transcription method. *)
Record stage (A : Type) : Type := {
  t0 : sx A;
  T : sx A;
  states : list (sx A);
  controls : list (sx A);
  state_der : list (nat * sx A);
  constraints : list (list (sx A));
  objective : list (sx A);
  method : option MultipleShooting
}.
Arguments t0 {A} _.
Arguments T {A} _.
Arguments states {A} _.
Arguments controls {A} _.
Arguments state_der {A} _.
Arguments constraints {A} _.
Arguments objective {A} _.
Arguments method {A} _.

(** [stage.tf]. *)
Definition tf {A} {SA : Scalar A} (s : stage A) : sx A := (t0 s + T s)%num.

(** The problem object: a source of fresh symbols, the store of its stages
    (a stage handle is an index in it), the constraints put on the problem
    itself and the chosen solver. *)
Record Ocp (A : Type) : Type := {
  fresh : nat;
  stages : list (stage A);
  ocp_constraints : list (list (sx A));
  solver : option (string * value A)
}.
Arguments fresh {A} _.
Arguments stages {A} _.
Arguments ocp_constraints {A} _.
Arguments solver {A} _.

(** A stage method runs on the stage itself and on the symbol counter. *)
Record building (A : Type) : Type := {
  counter : nat;
  self : stage A
}.
Arguments counter {A} _.
Arguments self {A} _.

Section Rockit.
Context {A : Type} {SA : Scalar A}.

Local Open Scope build_scope.

Definition with_self (f : stage A -> stage A) : Build (building A) unit :=
  modify (fun b => {| counter := counter b; self := f (self b) |}).

Definition fresh_sym : Build (building A) nat :=
  fun b => Some (counter b, {| counter := S (counter b); self := self b |}).

Definition lookup_der (n : nat) (ders : list (nat * sx A)) : option (sx A) :=
  snd <$> find (fun p => Nat.eqb (fst p) n) ders.

(** [stage.set_der(x, e)]: [x] has to be a signal; the last derivative set
    for a state is the one that counts. *)
Definition set_der (x e : sx A) : Build (building A) unit :=
  match x with
  | Sym n =>
      with_self (fun s =>
        {| t0 := t0 s; T := T s; states := states s; controls := controls s;
           state_der := (n, e) :: state_der s;
           constraints := constraints s; objective := objective s;
           method := method s |})
  | _ => fail
  end.

(** [stage.state()]. *)
Definition state : Build (building A) (sx A) :=
  n <- fresh_sym ;;
  with_self (fun s =>
    {| t0 := t0 s; T := T s; states := states s ++ [Sym n];
       controls := controls s; state_der := state_der s;
       constraints := constraints s; objective := objective s;
       method := method s |}) ;;
  ret (Sym n).

(** [stage.control(order=order)]: a control of order 0 is a new input; a
    control of a higher order is a state whose derivative is a control of
    the order below. *)
Fixpoint control (order : nat) : Build (building A) (sx A) :=
  match order with
  | O =>
      n <- fresh_sym ;;
      with_self (fun s =>
        {| t0 := t0 s; T := T s; states := states s;
           controls := controls s ++ [Sym n]; state_der := state_der s;
           constraints := constraints s; objective := objective s;
           method := method s |}) ;;
      ret (Sym n)
  | S order' =>
      u <- state ;;
      helper_u <- control order' ;;
      set_der u helper_u ;;
      ret u
  end.

(** The derivative a stage has recorded for a state [x]. *)
Definition stage_der (s : stage A) (x : sx A) : option (sx A) :=
  match x with
  | Sym n => lookup_der n (state_der s)
  | _ => None
  end.

(** [stage.der(x)] for a state [x]; it raises when there is none. *)
Definition der (x : sx A) : Build (building A) (sx A) :=
  s <- gets self ;; lift_option (stage_der s x).

(** [stage.subject_to(c)]. *)
Definition subject_to (c : list (sx A)) : Build (building A) unit :=
  with_self (fun s =>
    {| t0 := t0 s; T := T s; states := states s; controls := controls s;
       state_der := state_der s; constraints := constraints s ++ [c];
       objective := objective s; method := method s |}).

(** [stage.method(m)]. *)
Definition set_method (m : MultipleShooting) : Build (building A) unit :=
  with_self (fun s =>
    {| t0 := t0 s; T := T s; states := states s; controls := controls s;
       state_der := state_der s; constraints := constraints s;
       objective := objective s; method := Some m |}).

(** [stage.add_objective(e)]. *)
Definition add_objective (e : sx A) : Build (building A) unit :=
  with_self (fun s =>
    {| t0 := t0 s; T := T s; states := states s; controls := controls s;
       state_der := state_der s; constraints := constraints s;
       objective := objective s ++ [e]; method := method s |}).

(** [stage.T] read from inside the stage. *)
Definition self_T : Build (building A) (sx A) :=
  gets (fun b => T (self b)).

(** A time of the horizon: a fresh decision variable when it is free. *)
Definition time_var (spec : time_spec A) (n : nat) : sx A * nat :=
  match spec with
  | FreeTime _ => (Var n, S n)
  | FixedTime t => (Const t, n)
  end.

(** [Ocp()]. *)
Definition new_Ocp : Ocp A :=
  {| fresh := 0; stages := []; ocp_constraints := []; solver := None |}.

(** [ocp.stage(t0=t0, T=T)]: a new, empty stage of the problem. *)
Definition ocp_stage (t0_spec T_spec : time_spec A) : Build (Ocp A) nat :=
  fun o =>
    let '(t0v, n1) := time_var t0_spec (fresh o) in
    let '(Tv, n2) := time_var T_spec n1 in
    let s := {| t0 := t0v; T := Tv; states := []; controls := [];
                state_der := []; constraints := []; objective := [];
                method := None |} in
    Some (length (stages o),
          {| fresh := n2; stages := stages o ++ [s];
             ocp_constraints := ocp_constraints o; solver := solver o |}).

(** Calls on the stage behind a handle: they change that stage in the
    store. *)
Definition in_stage {B} (h : nat) (m : Build (building A) B) : Build (Ocp A) B :=
  fun o =>
    match stages o !! h with
    | Some s =>
        match m {| counter := fresh o; self := s |} with
        | Some (b, r) =>
            Some (b, {| fresh := counter r;
                        stages := <[h := self r]> (stages o);
                        ocp_constraints := ocp_constraints o;
                        solver := solver o |})
        | None => None
        end
    | None => None
    end.

Definition get_stage (h : nat) : Build (Ocp A) (stage A) :=
  fun o => match stages o !! h with
           | Some s => Some (s, o)
           | None => None
           end.

(** [ocp.subject_to(c)]. *)
Definition ocp_subject_to (c : list (sx A)) : Build (Ocp A) unit :=
  modify (fun o =>
    {| fresh := fresh o; stages := stages o;
       ocp_constraints := ocp_constraints o ++ [c]; solver := solver o |}).

(** [ocp.solver(name, options)]. *)
Definition ocp_solver (name : string) (options : value A) : Build (Ocp A) unit :=
  modify (fun o =>
    {| fresh := fresh o; stages := stages o;
       ocp_constraints := ocp_constraints o; solver := Some (name, options) |}).

(** [stage.t0], [stage.tf], [stage.at_t0(e)] and [stage.at_tf(e)] through
    a handle. *)
Definition t0_of (h : nat) : Build (Ocp A) (sx A) :=
  s <- get_stage h ;; ret (t0 s).

Definition tf_of (h : nat) : Build (Ocp A) (sx A) :=
  s <- get_stage h ;; ret (tf s).

Definition at_t0 (h : nat) (e : sx A) : Build (Ocp A) (sx A) :=
  s <- get_stage h ;; ret (At (t0 s) e).

Definition at_tf (h : nat) (e : sx A) : Build (Ocp A) (sx A) :=
  s <- get_stage h ;; ret (At (tf s) e).

(** [stage.states[i]] through a handle. *)
Definition state_of (h i : nat) : Build (Ocp A) (sx A) :=
  s <- get_stage h ;; lift_option (states s !! i).

(** [stage.sampler(exprs)] applied to a solution and to an array of
    times: one array for each expression, with one value for each time.
    On an empty array of times rockit raises, where this gives empty
    arrays: what is proved of sampled arrays is meant for grids that are
    not empty. *)
Definition sampler {TA : Trig A} {OA : Order A} (exprs : list (sx A))
    (gist : valuation A) (ts : list A) : list (list A) :=
  map (fun e => map (fun t => eval gist t e) ts) exprs.

End Rockit.

(* ===================================================================== *)
(** ** The script *)
(* ===================================================================== *)

Declare Scope result_scope.
Delimit Scope result_scope with result.
Notation "x <- m ;; k" := (result_bind m (fun x => k))
  (at level 20, m at level 99, k at level 200, only parsing) : result_scope.

(** The parameter document [truck_trailer_para.yaml]:
    [{truck: {L, M, W}, trailer1: {L, M, W}}]. *)
Record vehicle (A : Type) : Type := {
  veh_L : A;
  veh_M : A;
  veh_W : A
}.
Arguments veh_L {A} _.
Arguments veh_M {A} _.
Arguments veh_W {A} _.

Record params (A : Type) : Type := {
  truck : vehicle A;
  trailer1 : vehicle A
}.
Arguments truck {A} _.
Arguments trailer1 {A} _.

(** What [create_stage] returns: the stage handle and its expressions. *)
Record stage_vars (A : Type) : Type := {
  r_stage : nat;
  r_theta1 : sx A;
  r_x1 : sx A;
  r_y1 : sx A;
  r_theta0 : sx A;
  r_x0 : sx A;
  r_y0 : sx A;
  r_delta0 : sx A;
  r_v0 : sx A
}.
Arguments r_stage {A} _.
Arguments r_theta1 {A} _.
Arguments r_x1 {A} _.
Arguments r_y1 {A} _.
Arguments r_theta0 {A} _.
Arguments r_x0 {A} _.
Arguments r_y0 {A} _.
Arguments r_delta0 {A} _.
Arguments r_v0 {A} _.

(** What the solve function returns, as far as the script uses it after the
    solve: whether the solver converged, the two junction times and the
    solution handle. *)
Record solution (A : Type) : Type := {
  success : bool;
  t1_sol : A;
  t2_sol : A;
  gist_sol : valuation A
}.
Arguments success {A} _.
Arguments t1_sol {A} _.
Arguments t2_sol {A} _.
Arguments gist_sol {A} _.

(** The trajectory resampled on the control grid; [ctrl_t] is the array
    [t_ctrl]. *)
Record ctrl (A : Type) : Type := {
  theta1_ctrl : list A;
  x1_ctrl : list A;
  y1_ctrl : list A;
  theta0_ctrl : list A;
  x0_ctrl : list A;
  y0_ctrl : list A;
  delta0_ctrl : list A;
  v0_ctrl : list A;
  ctrl_t : list A
}.
Arguments theta1_ctrl {A} _.
Arguments x1_ctrl {A} _.
Arguments y1_ctrl {A} _.
Arguments theta0_ctrl {A} _.
Arguments x0_ctrl {A} _.
Arguments y0_ctrl {A} _.
Arguments delta0_ctrl {A} _.
Arguments v0_ctrl {A} _.
Arguments ctrl_t {A} _.

(** One pass of the simulation loop, as it went: the articulation angles
    and their difference, and the call of the integrator. *)
Record sim_call (A : Type) : Type := {
  call_k : nat;
  beta01_sim : A;
  beta01_ctrl : A;
  error : A;
  call_x : vec4 A;
  call_u : vec2 A;
  call_dt : A
}.
Arguments call_k {A} _.
Arguments beta01_sim {A} _.
Arguments beta01_ctrl {A} _.
Arguments error {A} _.
Arguments call_x {A} _.
Arguments call_u {A} _.
Arguments call_dt {A} _.

(** The variables the simulation loop can read and write: the planned
    arrays, the logging arrays, the current state, and the passes made so
    far. *)
Record sim_state (A : Type) : Type := {
  plan : ctrl A;
  theta1_sim : list A;
  x1_sim : list A;
  y1_sim : list A;
  theta0_sim : list A;
  x0_sim : list A;
  y0_sim : list A;
  x_current : vec4 A;
  calls : list (sim_call A)
}.
Arguments plan {A} _.
Arguments theta1_sim {A} _.
Arguments x1_sim {A} _.
Arguments y1_sim {A} _.
Arguments theta0_sim {A} _.
Arguments x0_sim {A} _.
Arguments y0_sim {A} _.
Arguments x_current {A} _.
Arguments calls {A} _.

(** Every array of the plan has the length of the time array. *)
Definition aligned {A} (c : ctrl A) : Prop :=
  Forall (fun a => length a = length (ctrl_t c))
    [theta1_ctrl c; x1_ctrl c; y1_ctrl c; theta0_ctrl c;
     x0_ctrl c; y0_ctrl c; delta0_ctrl c; v0_ctrl c].

(** A property of each of the six logging arrays. *)
Definition each_sim {A} (P : list A -> Prop) (s : sim_state A) : Prop :=
  P (theta1_sim s) /\ P (x1_sim s) /\ P (y1_sim s) /\
  P (theta0_sim s) /\ P (x0_sim s) /\ P (y0_sim s).

(** [a[i] = v] on an array: an index out of range raises. *)
Definition set_item {A} (a : list A) (i : nat) (v : A) : option (list A) :=
  if (i <? length a)%nat then Some (<[i := v]> a) else None.

Definition use_simulator : bool := false.
Definition refine : nat := 2.

Section Script.
Context {A : Type} {SA : Scalar A} {TA : Trig A} {PA : HasPi A} {OA : Order A}.

(** The parameters read from the file. *)
Variable para : params A.

(** [vert_vehic] of [plot_trailer]: the corner points of a vehicle
    footprint, from its reference point, its heading and its sizes. *)
Variable vert_vehic :
  sx A -> sx A -> sx A -> A -> A -> A -> A -> list (sx A * sx A).

(** [simulator_delta_init] and [simulator] of [simulator]: the one-step
    integrator and what it is set up with. *)
Variable Simu : Type.
Variable simulator_delta_init : Simu.
Variable simulator : Simu -> vec4 A -> vec2 A -> A -> vec4 A.

(** *** Environment *)

Definition og : A := (of_Z 0 * pi / of_Z 180)%num.
Definition sg : A := sin og.
Definition cg : A := cos og.

Definition xcr : A := of_Q (5 # 10).
Definition ycr : A := of_Q 2.
Definition pcr : vec2 A := (xcr, ycr).

Definition xcl : A := (- of_Q (5 # 10))%num.
Definition ycl : A := of_Q (24 # 10).
Definition pcl : vec2 A := (xcl, ycl).

Definition n1_1 : vec2 A := ((- cg)%num, sg).
Definition w1_1 : vec3 A := vertcat21 n1_1 (dot2 (neg2 n1_1) pcl).

Definition n2_1 : vec2 A := neg2 n1_1.
Definition w2_1 : vec3 A := vertcat21 n2_1 (dot2 (neg2 n2_1) pcr).

Definition n1_2 : vec2 A := (sg, cg).
Definition w1_2 : vec3 A := vertcat21 n1_2 (dot2 (neg2 n1_2) pcl).

Definition n2_2 : vec2 A := neg2 n1_2.
Definition w2_2 : vec3 A := vertcat21 n2_2 (dot2 (neg2 n2_2) pcr).

(** *** Parameters *)

Definition L0 : A := veh_L (truck para).
Definition M0 : A := veh_M (truck para).
Definition W0 : A := veh_W (truck para).
Definition L1 : A := veh_L (trailer1 para).
Definition M1 : A := veh_M (trailer1 para).
Definition W1 : A := veh_W (trailer1 para).

Definition x1_t0 : A := of_Q 0.
Definition y1_t0 : A := of_Q 0.
Definition theta1_t0 : A := (pi / of_Z 2)%num.
Definition theta0_t0 : A := (pi / of_Z 2)%num.

Definition x1_tf : A := of_Q (15 # 10).
Definition y1_tf : A := ((ycl + ycr) / of_Z 2)%num.
Definition theta1_tf : A := of_Q 0.
Definition theta0_tf : A := of_Q 0.

(** *** [create_stage] *)

(** The room constraint of one vertex: [w.T @ phom <= 0]. *)
Definition room (w : list (vec3 A)) (veh_vertex : sx A * sx A) : list (sx A) :=
  let phom := (fst veh_vertex, snd veh_vertex, Const (of_Z 1)) in
  le_zero (mtimes_T w phom).

(** Every call between [ocp.stage] and the [return] is a call on the new
    stage. *)
Definition create_stage (t0 T : time_spec A) (N M : nat) (w : list (vec3 A))
  : Build (Ocp A) (stage_vars A) :=
  (stage <- ocp_stage t0 T ;;
   in_stage stage (
     (* Trailer model *)
     theta1 <- state ;;
     x1 <- state ;;
     y1 <- state ;;

     theta0 <- state ;;
     let x0 := (x1 + Const L1 * cos theta1 + Const M0 * cos theta0)%num in
     let y0 := (y1 + Const L1 * sin theta1 + Const M0 * sin theta0)%num in

     delta0 <- control 1 ;;
     v0 <- control 1 ;;

     let beta01 := (theta0 - theta1)%num in

     let dtheta0 := (v0 / Const L0 * tan delta0)%num in
     let dtheta1 := (v0 / Const L1 * sin beta01
                     - Const (M0 / L1)%num * cos beta01 * dtheta0)%num in
     let v1 := (v0 * cos beta01 + Const M0 * sin beta01 * dtheta0)%num in

     set_der theta1 dtheta1 ;;
     set_der x1 (v1 * cos theta1)%num ;;
     set_der y1 (v1 * sin theta1)%num ;;

     set_der theta0 dtheta0 ;;

     (* Path constraints *)
     subject_to [Le (Const (- of_Q (2 # 10))%num) (Le v0 (Const (of_Q (2 # 10))))] ;;
     dv0 <- der v0 ;;
     subject_to [Le (Const (of_Z (-1))) (Le dv0 (Const (of_Z 1)))] ;;

     subject_to [Le (Const (- pi / of_Z 6)%num) (Le delta0 (Const (pi / of_Z 6)%num))] ;;
     ddelta0 <- der delta0 ;;
     subject_to [Le (Const (- pi / of_Z 10)%num) (Le ddelta0 (Const (pi / of_Z 10)%num))] ;;

     subject_to [Le (Const (- pi / of_Z 2)%num) (Le beta01 (Const (pi / of_Z 2)%num))] ;;

     set_method {| ms_N := N; ms_M := M; ms_intg := "rk" |} ;;

     (* Room constraint *)
     for_each (vert_vehic x0 y0 theta0 (W0 / of_Z 2)%num (W0 / of_Z 2)%num L0 M0)
       (fun veh_vertex => subject_to (room w veh_vertex)) ;;
     for_each (vert_vehic x1 y1 theta1 (W1 / of_Z 2)%num (W1 / of_Z 2)%num L1 M1)
       (fun veh_vertex => subject_to (room w veh_vertex)) ;;

     (* Minimal time *)
     stage_T <- self_T ;;
     add_objective stage_T ;;

     ret {| r_stage := stage; r_theta1 := theta1; r_x1 := x1; r_y1 := y1;
            r_theta0 := theta0; r_x0 := x0; r_y0 := y0;
            r_delta0 := delta0; r_v0 := v0 |}))%build.

(** The truck reference point rebuilt from a trailer state: the formula of
    lines 101 and 102. *)
Definition truck_xy (theta1 x1 y1 theta0 : A) : A * A :=
  ((x1 + L1 * cos theta1 + M0 * cos theta0)%num,
   (y1 + L1 * sin theta1 + M0 * sin theta0)%num).

(** What [create_stage] leaves, in closed form (see [create_stage_run]):
    the expressions it returns and the stage it has filled, when the first
    symbol it draws is [n]. *)
Definition created_vars (h n : nat) : stage_vars A :=
  let theta1 := Sym n in
  let x1 := Sym (1 + n) in
  let y1 := Sym (2 + n) in
  let theta0 := Sym (3 + n) in
  {| r_stage := h; r_theta1 := theta1; r_x1 := x1; r_y1 := y1;
     r_theta0 := theta0;
     r_x0 := (x1 + Const L1 * cos theta1 + Const M0 * cos theta0)%num;
     r_y0 := (y1 + Const L1 * sin theta1 + Const M0 * sin theta0)%num;
     r_delta0 := Sym (4 + n); r_v0 := Sym (6 + n) |}.

Definition created_stage (t0v Tv : sx A) (n N M : nat) (w : list (vec3 A))
  : stage A :=
  let r := created_vars 0 n in
  let ddelta0 := Sym (5 + n) in
  let dv0 := Sym (7 + n) in
  let beta01 := (r_theta0 r - r_theta1 r)%num in
  let dtheta0 := (r_v0 r / Const L0 * tan (r_delta0 r))%num in
  let dtheta1 := (r_v0 r / Const L1 * sin beta01
                  - Const (M0 / L1)%num * cos beta01 * dtheta0)%num in
  let v1 := (r_v0 r * cos beta01 + Const M0 * sin beta01 * dtheta0)%num in
  {| t0 := t0v; T := Tv;
     states := [r_theta1 r; r_x1 r; r_y1 r; r_theta0 r; r_delta0 r; r_v0 r];
     controls := [ddelta0; dv0];
     state_der :=
       [ (3 + n, dtheta0);
         (2 + n, (v1 * sin (r_theta1 r))%num);
         (1 + n, (v1 * cos (r_theta1 r))%num);
         (n, dtheta1);
         (6 + n, dv0);
         (4 + n, ddelta0) ];
     constraints :=
       [ [Le (Const (- of_Q (2 # 10))%num) (Le (r_v0 r) (Const (of_Q (2 # 10))))];
         [Le (Const (of_Z (-1))) (Le dv0 (Const (of_Z 1)))];
         [Le (Const (- pi / of_Z 6)%num) (Le (r_delta0 r) (Const (pi / of_Z 6)%num))];
         [Le (Const (- pi / of_Z 10)%num) (Le ddelta0 (Const (pi / of_Z 10)%num))];
         [Le (Const (- pi / of_Z 2)%num) (Le beta01 (Const (pi / of_Z 2)%num))] ]
       ++ map (room w)
            (vert_vehic (r_x0 r) (r_y0 r) (r_theta0 r)
               (W0 / of_Z 2)%num (W0 / of_Z 2)%num L0 M0)
       ++ map (room w)
            (vert_vehic (r_x1 r) (r_y1 r) (r_theta1 r)
               (W1 / of_Z 2)%num (W1 / of_Z 2)%num L1 M1);
     objective := [Tv];
     method := Some {| ms_N := N; ms_M := M; ms_intg := "rk" |} |}.

(** The vertices of the two footprints of a stage. *)
Definition truck_vertices (r : stage_vars A) : list (sx A * sx A) :=
  vert_vehic (r_x0 r) (r_y0 r) (r_theta0 r)
    (W0 / of_Z 2)%num (W0 / of_Z 2)%num L0 M0.

Definition trailer_vertices (r : stage_vars A) : list (sx A * sx A) :=
  vert_vehic (r_x1 r) (r_y1 r) (r_theta1 r)
    (W1 / of_Z 2)%num (W1 / of_Z 2)%num L1 M1.

(** Corridor containment in a stage [stg] with expressions [r] and corridor
    matrix [w]: after the five bounds come the room constraints of the
    vertices of both footprints and nothing else; each has one inequality
    for each column of [w], which holds wherever the constraints of the
    stage hold. *)
Definition corridor_imposed (stg : stage A) (r : stage_vars A)
    (w : list (vec3 A)) : Prop :=
  skipn 5 (constraints stg)
  = map (room w) (truck_vertices r ++ trailer_vertices r) /\
  forall p, In p (truck_vertices r ++ trailer_vertices r) ->
    In (room w p) (constraints stg) /\
    length (room w p) = length w /\
    forall col, In col w ->
      In (Le (dot3 (const3 col) (fst p, snd p, Const (of_Z 1))) (Const (of_Z 0)))
         (room w p) /\
      forall (g : valuation A) (t : A),
        all_hold g t (constraints stg) ->
        num_le (dot3 col (eval g t (fst p), eval g t (snd p), of_Z 1)) (of_Z 0).

(** *** [stitch_stages] *)

Definition stitch_stages (stage1 stage2 : nat) : Build (Ocp A) unit :=
  ((* Stitch time *)
   tf1 <- tf_of stage1 ;;
   t02 <- t0_of stage2 ;;
   ocp_subject_to [Eq tf1 t02] ;;
   (* Stitch states *)
   s1 <- get_stage stage1 ;;
   for_each (seq 0 (length (states s1))) (fun i =>
     x2 <- state_of stage2 i ;;
     lhs <- at_t0 stage2 x2 ;;
     x1 <- state_of stage1 i ;;
     rhs <- at_tf stage1 x1 ;;
     ocp_subject_to [Eq lhs rhs]))%build.

(** The constraints that [stitch_stages] puts on the problem. *)
Definition stitching (s1 s2 : stage A) : list (list (sx A)) :=
  [Eq (tf s1) (t0 s2)]
  :: zip_with (fun x1 x2 => [Eq (At (t0 s2) x2) (At (tf s1) x1)])
       (states s1) (states s2).

(** *** The problem *)

Definition N_1 : nat := 10.
Definition M_1 : nat := 2.
Definition T_1 : A := of_Q 10.
Definition N_2 : nat := 5.
Definition M_2 : nat := 2.
Definition T_2 : A := of_Q 10.

(** Pick a solution method. *)
Definition options : value A :=
  VDict [ ("expand", VBool true);
          ("verbose", VBool false);
          ("print_time", VBool true);
          ("error_on_fail", VBool true);
          ("ipopt", VDict [ ("linear_solver", VStr "ma57");
                            ("tol", VNum (of_Q (1 # 100000000))) ]) ]%string.

(** Lines 152 to 177: the two stages and the initial constraints. *)
Definition problem_stages : Build (Ocp A) (stage_vars A * stage_vars A) :=
  ((* Stage 1 - Approach *)
   s1 <- create_stage (FreeTime (of_Z 0)) (FreeTime T_1) N_1 M_1 [w1_1; w2_1; w1_2] ;;

   (* Initial constraints *)
   t0_1 <- t0_of (r_stage s1) ;;
   ocp_subject_to [Eq t0_1 (Const (of_Z 0))] ;;
   e <- at_t0 (r_stage s1) (r_x1 s1) ;;
   ocp_subject_to [Eq e (Const x1_t0)] ;;
   e <- at_t0 (r_stage s1) (r_y1 s1) ;;
   ocp_subject_to [Eq e (Const y1_t0)] ;;
   e <- at_t0 (r_stage s1) (r_theta1 s1) ;;
   ocp_subject_to [Eq e (Const theta1_t0)] ;;
   e <- at_t0 (r_stage s1) (r_theta0 s1) ;;
   ocp_subject_to [Eq e (Const theta0_t0)] ;;

   (* Stage 2 - Corner *)
   s2 <- create_stage (FreeTime T_1) (FreeTime T_2) N_2 M_2 [w1_2; w2_2; w1_1] ;;
   ret (s1, s2))%build.

(** Lines 152 to 193: the stages, their stitching, the final constraints
    and the solver. *)
Definition problem : Build (Ocp A) (stage_vars A * stage_vars A) :=
  (both <- problem_stages ;;
   let '(s1, s2) := both in
   stitch_stages (r_stage s1) (r_stage s2) ;;

   (* Final constraint *)
   e <- at_tf (r_stage s2) (r_x1 s2) ;;
   ocp_subject_to [Eq e (Const x1_tf)] ;;
   e <- at_tf (r_stage s2) (r_y1 s2) ;;
   ocp_subject_to [Eq e (Const y1_tf)] ;;
   e <- at_tf (r_stage s2) (r_theta1 s2) ;;
   ocp_subject_to [Eq e (Const theta1_tf)] ;;
   e <- at_tf (r_stage s2) (r_theta0 s2) ;;
   ocp_subject_to [Eq e (Const theta0_tf)] ;;

   ocp_solver "ipopt" options ;;
   ret (s1, s2))%build.

(** The problem in closed form (see [problem_stages_run] and
    [problem_run]): its two stages and the constraints put on it. *)
Definition stage_1 : stage A :=
  created_stage (Var 0) (Var 1) 2 N_1 M_1 [w1_1; w2_1; w1_2].

Definition stage_2 : stage A :=
  created_stage (Var 10) (Var 11) 12 N_2 M_2 [w1_2; w2_2; w1_1].

Definition initial_constraints : list (list (sx A)) :=
  [ [Eq (Var 0) (Const (of_Z 0))];
    [Eq (At (Var 0) (Sym 3)) (Const x1_t0)];
    [Eq (At (Var 0) (Sym 4)) (Const y1_t0)];
    [Eq (At (Var 0) (Sym 2)) (Const theta1_t0)];
    [Eq (At (Var 0) (Sym 5)) (Const theta0_t0)] ].

Definition final_constraints : list (list (sx A)) :=
  [ [Eq (At (Var 10 + Var 11)%num (Sym 13)) (Const x1_tf)];
    [Eq (At (Var 10 + Var 11)%num (Sym 14)) (Const y1_tf)];
    [Eq (At (Var 10 + Var 11)%num (Sym 12)) (Const theta1_tf)];
    [Eq (At (Var 10 + Var 11)%num (Sym 15)) (Const theta0_tf)] ].

(** *** Solving *)

(** The solver as the script sees it: what the compiled solve function
    leaves for the problem and the initial guesses of lines 226 and 227,
    converged or not. *)
Variable nlp : Ocp A -> solution A.

(** What CasADi does when the option is not given. *)
Variable error_on_fail_default : bool.

Definition error_on_fail (o : Ocp A) : bool :=
  match solver o with
  | Some (_, opts) =>
      match get_item "error_on_fail" opts with
      | Some (VBool b) => b
      | _ => error_on_fail_default
      end
  | None => error_on_fail_default
  end.

(** The call of [solve_ocp]: a run that did not converge raises when
    [error_on_fail] is set, and returns what the solver left otherwise. *)
Definition solve_ocp (o : Ocp A) : result (solution A) :=
  let sol := nlp o in
  if success sol then Ok sol
  else if error_on_fail o then Raise SolverFailed
  else Ok sol.

(** *** Resampling, lines 229 to 242 *)

Definition sampler1 (s1 : stage_vars A) : valuation A -> list A -> list (list A) :=
  sampler [r_theta1 s1; r_x1 s1; r_y1 s1; r_theta0 s1;
           r_x0 s1; r_y0 s1; r_delta0 s1; r_v0 s1].

Definition sampler2 (s2 : stage_vars A) : valuation A -> list A -> list (list A) :=
  sampler [r_theta1 s2; r_x1 s2; r_y1 s2; r_theta0 s2;
           r_x0 s2; r_y0 s2; r_delta0 s2; r_v0 s2].

(** Lines 231 to 242: both stages sampled on their grids, and the pieces
    concatenated. *)
Definition sample_ctrl (s1 s2 : stage_vars A) (gist : valuation A)
    (t1c t2c : list A) : option (ctrl A) :=
  match sampler1 s1 gist t1c, sampler2 s2 gist t2c with
  | [theta1_1ctrl; x1_1ctrl; y1_1ctrl; theta0_1ctrl;
     x0_1ctrl; y0_1ctrl; delta0_1ctrl; v0_1ctrl],
    [theta1_2ctrl; x1_2ctrl; y1_2ctrl; theta0_2ctrl;
     x0_2ctrl; y0_2ctrl; delta0_2ctrl; v0_2ctrl] =>
      Some {| theta1_ctrl := theta1_1ctrl ++ theta1_2ctrl;
              x1_ctrl := x1_1ctrl ++ x1_2ctrl;
              y1_ctrl := y1_1ctrl ++ y1_2ctrl;
              theta0_ctrl := theta0_1ctrl ++ theta0_2ctrl;
              x0_ctrl := x0_1ctrl ++ x0_2ctrl;
              y0_ctrl := y0_1ctrl ++ y0_2ctrl;
              delta0_ctrl := delta0_1ctrl ++ delta0_2ctrl;
              v0_ctrl := v0_1ctrl ++ v0_2ctrl;
              ctrl_t := t1c ++ t2c |}
  | _, _ => None
  end.

Definition resample (s1 s2 : stage_vars A) (sol : solution A) : option (ctrl A) :=
  match t1_ctrl (t1_sol sol), t2_ctrl (t1_sol sol) (t2_sol sol) with
  | Some t1c, Some t2c => sample_ctrl s1 s2 (gist_sol sol) t1c t2c
  | _, _ => None
  end.

(** *** The output document, lines 244 to 257 *)

Definition result_yaml (c : ctrl A) : value A :=
  VDict [ ("x", VDict [ ("px1", VArr (x1_ctrl c));
                        ("py1", VArr (y1_ctrl c));
                        ("theta1", VArr (theta1_ctrl c));
                        ("px0", VArr (x0_ctrl c));
                        ("py0", VArr (y0_ctrl c));
                        ("theta0", VArr (theta0_ctrl c)) ]);
          ("u", VDict [ ("delta", VArr (delta0_ctrl c));
                        ("v_l", VArr (v0_ctrl c)) ]);
          ("t", VArr (ctrl_t c)) ]%string.

(** *** The simulation, lines 262 to 302 *)

Definition Nsim (c : ctrl A) : nat := length (ctrl_t c).

(** [np.zeros(n)]. *)
Definition zeros (n : nat) : list A := replicate n (of_Q 0).

(** The variables as they are when the loop starts. *)
Definition sim_init (c : ctrl A) : sim_state A :=
  {| plan := c;
     theta1_sim := zeros (Nsim c);
     x1_sim := zeros (Nsim c);
     y1_sim := zeros (Nsim c);
     theta0_sim := zeros (Nsim c);
     x0_sim := zeros (Nsim c);
     y0_sim := zeros (Nsim c);
     x_current := (theta1_t0, x1_t0, y1_t0, theta0_t0);
     calls := [] |}.

(** The body of the loop for one [k]. *)
Definition sim_step (simu : Simu) (k : nat) : Build (sim_state A) unit :=
  fun s =>
    match theta0_sim s !! k, theta1_sim s !! k,
          theta0_ctrl (plan s) !! k, theta1_ctrl (plan s) !! k,
          delta0_ctrl (plan s) !! k, v0_ctrl (plan s) !! k,
          ctrl_t (plan s) !! (k + 1)%nat, ctrl_t (plan s) !! k with
    | Some th0s, Some th1s, Some th0c, Some th1c,
      Some d0, Some v0, Some tk1, Some tk =>
        let b_sim := (th0s - th1s)%num in
        let b_ctrl := (th0c - th1c)%num in
        let err := (b_ctrl - b_sim)%num in

        let u := (d0, v0) in
        let dt := (tk1 - tk)%num in
        let x_next := simulator simu (x_current s) u dt in
        let '(xn0, xn1, xn2, xn3) := x_next in

        match set_item (theta1_sim s) (k + 1) xn0,
              set_item (x1_sim s) (k + 1) xn1,
              set_item (y1_sim s) (k + 1) xn2,
              set_item (theta0_sim s) (k + 1) xn3,
              set_item (x0_sim s) (k + 1)
                (xn1 + L1 * cos xn0 + M0 * cos xn3)%num,
              set_item (y0_sim s) (k + 1)
                (xn2 + L1 * sin xn0 + M0 * sin xn3)%num with
        | Some a1, Some a2, Some a3, Some a4, Some a5, Some a6 =>
            Some (tt,
                  {| plan := plan s;
                     theta1_sim := a1; x1_sim := a2; y1_sim := a3;
                     theta0_sim := a4; x0_sim := a5; y0_sim := a6;
                     x_current := x_next;
                     calls := calls s ++
                       [{| call_k := k; beta01_sim := b_sim;
                           beta01_ctrl := b_ctrl; error := err;
                           call_x := x_current s; call_u := u;
                           call_dt := dt |}] |})
        | _, _, _, _, _, _ => None
        end
    | _, _, _, _, _, _, _, _ => None
    end.

(** What the pass [k] has logged, in terms of the call it made: the state
    the integrator returned, and the truck position rebuilt from it. *)
Definition logged (s : sim_state A) (k : nat) (call : sim_call A) : Prop :=
  let '(th1, x1, y1, th0) :=
    simulator simulator_delta_init (call_x call) (call_u call) (call_dt call) in
  theta1_sim s !! (k + 1)%nat = Some th1 /\
  x1_sim s !! (k + 1)%nat = Some x1 /\
  y1_sim s !! (k + 1)%nat = Some y1 /\
  theta0_sim s !! (k + 1)%nat = Some th0 /\
  x0_sim s !! (k + 1)%nat = Some (x1 + L1 * cos th1 + M0 * cos th0)%num /\
  y0_sim s !! (k + 1)%nat = Some (y1 + L1 * sin th1 + M0 * sin th0)%num.

(** What holds after [m] passes of the loop on the plan [c]. *)
Definition sim_invariant (c : ctrl A) (m : nat) (s : sim_state A) : Prop :=
  plan s = c /\
  each_sim (fun a => length a = Nsim c) s /\
  (forall j, (j < Nsim c)%nat -> j = 0%nat \/ (m < j)%nat ->
     each_sim (fun a => a !! j = Some (of_Q 0)) s) /\
  length (calls s) = m /\
  (forall k call, calls s !! k = Some call ->
     call_k call = k /\
     delta0_ctrl c !! k = Some (fst (call_u call)) /\
     v0_ctrl c !! k = Some (snd (call_u call)) /\
     logged s k call) /\
  (forall call, calls s !! 0%nat = Some call ->
     beta01_sim call = (of_Q 0 - of_Q 0)%num /\
     call_x call = (theta1_t0, x1_t0, y1_t0, theta0_t0)) /\
  (m = 0%nat -> x_current s = (theta1_t0, x1_t0, y1_t0, theta0_t0)).

(** The block under [if use_simulator]. *)
Definition simulate (c : ctrl A) : option (sim_state A) :=
  let simu := simulator_delta_init in
  snd <$> for_each (seq 0 (Nsim c - 1)) (sim_step simu) (sim_init c).

(** *** The script after the parameters are read *)

(** [open(..., 'w')] and [yaml.dump]. *)
Variable dump : string -> value A -> result unit.

Definition script (simulate_too : bool)
  : result (ctrl A * option (sim_state A)) :=
  (built <- of_option (RuntimeError "rockit") (problem new_Ocp) ;;
   let '(s1, s2, ocp) := built in
   sol <- solve_ocp ocp ;;
   c <- of_option ValueError (resample s1 s2 sol) ;;
   _ <- dump "truck_trailer_x_u.yaml" (result_yaml c) ;;
   if simulate_too
   then sim <- of_option IndexError (simulate c) ;; Ok (c, Some sim)
   else Ok (c, None))%result.

End Script.

(** The whole script: the parameters are read first. *)
Definition main {A : Type} {SA : Scalar A} {TA : Trig A} {PA : HasPi A} {OA : Order A}
    (load : string -> result (params A))
    (vert_vehic : sx A -> sx A -> sx A -> A -> A -> A -> A -> list (sx A * sx A))
    {Simu : Type} (simulator_delta_init : Simu)
    (simulator : Simu -> vec4 A -> vec2 A -> A -> vec4 A)
    (nlp : Ocp A -> solution A) (error_on_fail_default : bool)
    (dump : string -> value A -> result unit)
  : result (ctrl A * option (sim_state A)) :=
  (para <- load "truck_trailer_para.yaml"%string ;;
   script para vert_vehic Simu simulator_delta_init simulator nlp
     error_on_fail_default dump use_simulator)%result.

(** *** The junction times, lines 214 and 215 *)

Section JunctionTimes.
Context {A : Type} {SA : Scalar A}.

(** [stage.T] through a handle. *)
Definition T_of (h : nat) : Build (Ocp A) (sx A) :=
  (s <- get_stage h ;; ret (T s))%build.

(** [t1] and [t2]: the value of the duration of stage 1, and its sum with
    the value of the duration of stage 2.  [ocp.value(e)] stands for the
    value of [e] in the solution, that is [e] itself until a solution
    evaluates it. *)
Definition junction_times (stage_1 stage_2 : nat) : Build (Ocp A) (sx A * sx A) :=
  (T1 <- T_of stage_1 ;;
   let t1 := T1 in
   T2 <- T_of stage_2 ;;
   let t2 := (t1 + T2)%num in
   ret (t1, t2))%build.

End JunctionTimes.

(* ===================================================================== *)
(** ** Data to run the model on *)
(* ===================================================================== *)

Module Sample.
Import Ideal.
Local Open Scope R_scope.

(** Parameters, a rectangular footprint and an integrator that holds the
    state, to run the model on. *)
Definition para0 : params R :=
  {| truck := {| veh_L := 1; veh_M := 0; veh_W := 1 |};
     trailer1 := {| veh_L := 2; veh_M := 0; veh_W := 1 |} |}.

Definition corner (x y theta : sx R) (dx dy : R) : sx R * sx R :=
  ((x + Const dx * cos theta - Const dy * sin theta)%num,
   (y + Const dx * sin theta + Const dy * cos theta)%num).

Definition rectangle (x y theta : sx R) (w_left w_right l_front l_back : R)
  : list (sx R * sx R) :=
  [ corner x y theta l_front w_left;
    corner x y theta l_front (- w_right);
    corner x y theta (- l_back) (- w_right);
    corner x y theta (- l_back) w_left ].

Definition hold (_ : unit) (x : vec4 R) (_ : vec2 R) (_ : R) : vec4 R := x.

Definition plan0 : ctrl R :=
  {| theta1_ctrl := [PI / 2; PI / 2]; x1_ctrl := [0; 0]; y1_ctrl := [0; 0];
     theta0_ctrl := [PI / 2; PI / 2]; x0_ctrl := [0; 0]; y0_ctrl := [2; 2];
     delta0_ctrl := [0; 0]; v0_ctrl := [0; 0]; ctrl_t := [0; 1 / 10] |}.

End Sample.

(** *** What chains the passes of the simulation *)

Section Chaining.
Context {A : Type} {SA : Scalar A}.
Variable Simu : Type.
Variable simulator_delta_init : Simu.
Variable simulator : Simu -> vec4 A -> vec2 A -> A -> vec4 A.

(** What the calls of a run are chained by. *)
Definition chained (c : ctrl A) (s : sim_state A) : Prop :=
  (forall k call, calls s !! k = Some call ->
     exists tk tk1 th0c th1c,
       ctrl_t c !! k = Some tk /\ ctrl_t c !! (k + 1) = Some tk1 /\
       call_dt call = (tk1 - tk)%num /\
       theta0_ctrl c !! k = Some th0c /\ theta1_ctrl c !! k = Some th1c /\
       beta01_ctrl call = (th0c - th1c)%num /\
       error call = (beta01_ctrl call - beta01_sim call)%num) /\
  (forall k call call',
     calls s !! k = Some call -> calls s !! S k = Some call' ->
     let x_next :=
       simulator simulator_delta_init (call_x call) (call_u call) (call_dt call) in
     call_x call' = x_next /\
     beta01_sim call' = (x_next.2 - x_next.1.1.1)%num) /\
  (forall k call,
     length (calls s) = S k -> calls s !! k = Some call ->
     x_current s
     = simulator simulator_delta_init (call_x call) (call_u call) (call_dt call)).

End Chaining.

(** *** Trajectories on the real numbers *)

Module Motion.
Import Ideal.
Local Open Scope R_scope.

(** The signals of [g] follow the dynamics of the stage at time [t]: every
    state has, as a function of time, the derivative that [set_der] or
    [control(order=1)] recorded for it. *)
Definition follows (g : valuation R) (stg : stage R) (t : R) : Prop :=
  forall n d, In (n, d) (state_der stg) ->
              derivable_pt_lim (sig g n) t (eval g t d).

(** Driving straight ahead along the x axis at speed 1, with the symbols of
    the signals numbered from [n]. *)
Definition straight (n : nat) : valuation R :=
  {| sig := fun k t => if (k =? 1 + n)%nat then t
                       else if (k =? 6 + n)%nat then 1 else 0;
     var := fun _ => 0 |}.

End Motion.

(** *** Stores to stitch *)

Module Stitched.
Import Ideal.

(** A stage with [n] states and nothing else. *)
Definition bare (n : nat) : stage R :=
  {| t0 := Var 0; T := Var 1; states := map Sym (seq 2 n); controls := [];
     state_der := []; constraints := []; objective := []; method := None |}.

(** A problem with two such stages. *)
Definition store (n1 n2 : nat) : Ocp R :=
  {| fresh := 2 + n1 + n2; stages := [bare n1; bare n2];
     ocp_constraints := []; solver := None |}.

End Stitched.

(* ===================================================================== *)
(** ** Properties of the stage builder *)
(* ===================================================================== *)

Section BuilderFacts.
Context {A : Type} {SA : Scalar A}.

Lemma for_each_subject_to {B} (g : B -> list (sx A)) (xs : list B) (b : building A) :
  for_each xs (fun x => subject_to (g x)) b
  = Some (tt, {| counter := counter b;
                 self := {| t0 := t0 (self b); T := T (self b);
                            states := states (self b);
                            controls := controls (self b);
                            state_der := state_der (self b);
                            constraints := constraints (self b) ++ map g xs;
                            objective := objective (self b);
                            method := method (self b) |} |}).
Proof.
  revert b. induction xs as [|x xs IH]; intros [n s]; cbn.
  - unfold ret. rewrite app_nil_r. destruct s; reflexivity.
  - unfold bind; cbn. rewrite IH; cbn. rewrite <- app_assoc. reflexivity.
Qed.

Lemma bind_for_each_subject_to {B C} (g : B -> list (sx A)) (xs : list B)
    (k : unit -> Build (building A) C) (b : building A) :
  bind (for_each xs (fun x => subject_to (g x))) k b
  = k tt {| counter := counter b;
            self := {| t0 := t0 (self b); T := T (self b);
                       states := states (self b);
                       controls := controls (self b);
                       state_der := state_der (self b);
                       constraints := constraints (self b) ++ map g xs;
                       objective := objective (self b);
                       method := method (self b) |} |}.
Proof. unfold bind at 1. rewrite for_each_subject_to. reflexivity. Qed.

Lemma lookup_new_stage (l : list (stage A)) (s : stage A) :
  (l ++ [s]) !! length l = Some s.
Proof. rewrite lookup_app_r by lia. rewrite Nat.sub_diag. reflexivity. Qed.

Lemma insert_new_stage (l : list (stage A)) (s s' : stage A) :
  <[length l := s']> (l ++ [s]) = l ++ [s'].
Proof. rewrite insert_app_r_alt by lia. rewrite Nat.sub_diag. reflexivity. Qed.

Lemma lookup_der_here (n : nat) (e : sx A) (l : list (nat * sx A)) :
  lookup_der n ((n, e) :: l) = Some e.
Proof. unfold lookup_der; cbn. rewrite Nat.eqb_refl. reflexivity. Qed.

Lemma lookup_der_skip (n m : nat) (e : sx A) (l : list (nat * sx A)) :
  m <> n -> lookup_der n ((m, e) :: l) = lookup_der n l.
Proof.
  intros Hne. unfold lookup_der; cbn.
  rewrite (proj2 (Nat.eqb_neq m n) Hne). reflexivity.
Qed.

Lemma bind_der {B} (x d : sx A) (k : sx A -> Build (building A) B) (b : building A) :
  stage_der (self b) x = Some d -> bind (der x) k b = k d b.
Proof. intros Hd. unfold bind, der, gets. cbn. rewrite Hd. reflexivity. Qed.

End BuilderFacts.

Ltac find_der :=
  cbn [stage_der self state_der created_stage created_vars
       r_theta1 r_x1 r_y1 r_theta0 r_delta0 r_v0 Nat.add];
  repeat (rewrite lookup_der_skip by lia);
  apply lookup_der_here.

Section CreateStageFacts.
Context {A : Type} {SA : Scalar A} {TA : Trig A} {PA : HasPi A} {OA : Order A}.
Variable para : params A.
Variable vert_vehic :
  sx A -> sx A -> sx A -> A -> A -> A -> A -> list (sx A * sx A).

Local Abbreviation create_stage := (create_stage para vert_vehic).
Local Abbreviation created_stage := (created_stage para vert_vehic).
Local Abbreviation created_vars := (created_vars para).

(** [create_stage] never raises: it appends one stage to the store, draws
    the symbols of the two times first and eight more for the signals, and
    leaves the constraints of the problem and its solver as they were. *)
Lemma create_stage_run (t0 T : time_spec A) (N M : nat) (w : list (vec3 A))
    (o : Ocp A) :
  let tv0 := time_var t0 (fresh o) in
  let tv := time_var T (snd tv0) in
  create_stage t0 T N M w o
  = Some (created_vars (length (stages o)) (snd tv),
          {| fresh := 8 + snd tv;
             stages := stages o ++ [created_stage (fst tv0) (fst tv) (snd tv) N M w];
             ocp_constraints := ocp_constraints o;
             solver := solver o |}).
Proof.
  intros tv0 tv. subst tv tv0. unfold create_stage.
  unfold bind at 1. unfold ocp_stage.
  destruct (time_var t0 (fresh o)) as [t0v n1]. cbn [fst snd].
  destruct (time_var T n1) as [Tv n2].
  unfold in_stage. cbn [stages fresh fst snd]. rewrite lookup_new_stage.
  cbn -[for_each room der].
  erewrite bind_der by find_der.
  cbn -[for_each room der].
  erewrite bind_der by find_der.
  cbn -[for_each room der].
  rewrite bind_for_each_subject_to.
  cbn -[for_each room der].
  rewrite bind_for_each_subject_to.
  cbn -[for_each room der].
  rewrite insert_new_stage. reflexivity.
Qed.


Lemma bind_create_stage {B} (t0 T : time_spec A) (N M : nat) (w : list (vec3 A))
    (k : stage_vars A -> Build (Ocp A) B) (o : Ocp A) :
  bind (create_stage t0 T N M w) k o
  = k (created_vars (length (stages o)) (snd (time_var T (snd (time_var t0 (fresh o))))))
      {| fresh := 8 + snd (time_var T (snd (time_var t0 (fresh o))));
         stages := stages o ++
           [created_stage (fst (time_var t0 (fresh o)))
              (fst (time_var T (snd (time_var t0 (fresh o)))))
              (snd (time_var T (snd (time_var t0 (fresh o))))) N M w];
         ocp_constraints := ocp_constraints o;
         solver := solver o |}.
Proof. unfold bind at 1. rewrite create_stage_run. reflexivity. Qed.

Local Abbreviation L0 := (L0 para).
Local Abbreviation M0 := (M0 para).
Local Abbreviation L1 := (L1 para).
Local Abbreviation problem_stages := (problem_stages para vert_vehic).
Local Abbreviation problem := (problem para vert_vehic).
Local Abbreviation stage_1 := (stage_1 para vert_vehic).
Local Abbreviation stage_2 := (stage_2 para vert_vehic).
Local Abbreviation truck_vertices := (truck_vertices para vert_vehic).
Local Abbreviation trailer_vertices := (trailer_vertices para vert_vehic).
Local Abbreviation corridor_imposed := (corridor_imposed para vert_vehic).

(** C1: whatever its arguments, [create_stage] succeeds and records, for the
    four states of the trailer model, the derivatives of the kinematic
    model: at every time of every solution they evaluate to
    [dtheta0 = v0 / L0 * tan delta0],
    [dtheta1 = v0 / L1 * sin beta01 - M0 / L1 * cos beta01 * dtheta0] with
    [beta01 = theta0 - theta1], and [(v1 * cos theta1, v1 * sin theta1)] with
    [v1 = v0 * cos beta01 + M0 * sin beta01 * dtheta0]. *)
Theorem create_stage_kinematics (t0 T : time_spec A) (N M : nat)
    (w : list (vec3 A)) (o : Ocp A) :
  exists r o' stg dtheta1 dx1 dy1 dtheta0,
    create_stage t0 T N M w o = Some (r, o') /\
    stages o' !! r_stage r = Some stg /\
    stage_der stg (r_theta1 r) = Some dtheta1 /\
    stage_der stg (r_x1 r) = Some dx1 /\
    stage_der stg (r_y1 r) = Some dy1 /\
    stage_der stg (r_theta0 r) = Some dtheta0 /\
    forall (g : valuation A) (t : A),
      let theta1 := eval g t (r_theta1 r) in
      let theta0 := eval g t (r_theta0 r) in
      let delta0 := eval g t (r_delta0 r) in
      let v0 := eval g t (r_v0 r) in
      let beta01 := (theta0 - theta1)%num in
      let v1 := (v0 * cos beta01 + M0 * sin beta01 * eval g t dtheta0)%num in
      eval g t dtheta0 = (v0 / L0 * tan delta0)%num /\
      eval g t dtheta1
      = (v0 / L1 * sin beta01 - M0 / L1 * cos beta01 * eval g t dtheta0)%num /\
      eval g t dx1 = (v1 * cos theta1)%num /\
      eval g t dy1 = (v1 * sin theta1)%num.
Proof.
  rewrite create_stage_run. do 7 eexists.
  split; [reflexivity|]. cbn [r_stage created_vars stages].
  split; [apply lookup_new_stage|].
  split; [find_der|]. split; [find_der|]. split; [find_der|]. split; [find_der|].
  intros g t. cbn. repeat split; reflexivity.
Qed.


(** C4: whatever its arguments, [create_stage] succeeds; both controls are
    of order 1, that is states of the stage whose derivatives are inputs of
    their own; and the first five constraints of the stage are the two-sided
    bounds on [v0], [der(v0)], [delta0], [der(delta0)] and
    [theta0 - theta1], so that wherever the constraints of the stage hold
    these five quantities lie in [[-0.2, 0.2]], [[-1, 1]],
    [[-pi/6, pi/6]], [[-pi/10, pi/10]] and [[-pi/2, pi/2]]. *)
Theorem create_stage_bounds (t0 T : time_spec A) (N M : nat)
    (w : list (vec3 A)) (o : Ocp A) :
  exists r o' stg dv0 ddelta0,
    create_stage t0 T N M w o = Some (r, o') /\
    stages o' !! r_stage r = Some stg /\
    In (r_delta0 r) (states stg) /\ In (r_v0 r) (states stg) /\
    stage_der stg (r_delta0 r) = Some ddelta0 /\
    stage_der stg (r_v0 r) = Some dv0 /\
    controls stg = [ddelta0; dv0] /\
    firstn 5 (constraints stg)
    = [ [Le (Const (- of_Q (2 # 10))%num) (Le (r_v0 r) (Const (of_Q (2 # 10))))];
        [Le (Const (of_Z (-1))) (Le dv0 (Const (of_Z 1)))];
        [Le (Const (- pi / of_Z 6)%num) (Le (r_delta0 r) (Const (pi / of_Z 6)%num))];
        [Le (Const (- pi / of_Z 10)%num) (Le ddelta0 (Const (pi / of_Z 10)%num))];
        [Le (Const (- pi / of_Z 2)%num)
            (Le (r_theta0 r - r_theta1 r)%num (Const (pi / of_Z 2)%num))] ] /\
    forall (g : valuation A) (t : A),
      all_hold g t (constraints stg) ->
      between (- of_Q (2 # 10))%num (eval g t (r_v0 r)) (of_Q (2 # 10)) /\
      between (of_Z (-1)) (eval g t dv0) (of_Z 1) /\
      between (- pi / of_Z 6)%num (eval g t (r_delta0 r)) (pi / of_Z 6)%num /\
      between (- pi / of_Z 10)%num (eval g t ddelta0) (pi / of_Z 10)%num /\
      between (- pi / of_Z 2)%num
        (eval g t (r_theta0 r) - eval g t (r_theta1 r))%num (pi / of_Z 2)%num.
Proof.
  rewrite create_stage_run. do 5 eexists.
  split; [reflexivity|]. cbn [r_stage created_vars stages].
  split; [apply lookup_new_stage|].
  split; [cbn; tauto|]. split; [cbn; tauto|].
  split; [find_der|]. split; [find_der|].
  split; [reflexivity|]. split; [reflexivity|].
  intros g t Hall.
  assert (Hin : forall e, In [e] (firstn 5 (constraints
             (created_stage (time_var t0 (fresh o)).1
                (time_var T (time_var t0 (fresh o)).2).1
                (time_var T (time_var t0 (fresh o)).2).2 N M w))) ->
           holds g t e).
  { intros e He. apply (Hall [e]); [|left; reflexivity].
    cbn [constraints created_stage] in *.
    apply in_or_app. left. exact He. }
  pose proof (Hin _ (or_introl eq_refl)) as [? ?].
  pose proof (Hin _ (or_intror (or_introl eq_refl))) as [? ?].
  pose proof (Hin _ (or_intror (or_intror (or_introl eq_refl)))) as [? ?].
  pose proof (Hin _ (or_intror (or_intror (or_intror (or_introl eq_refl))))) as [? ?].
  pose proof (Hin _ (or_intror (or_intror (or_intror (or_intror (or_introl eq_refl))))))
    as [? ?].
  repeat split; assumption.
Qed.

(** The room constraint of a vertex has one inequality for each column of
    the corridor matrix, and it holds exactly when the vertex is on the
    allowed side of each of them. *)
Lemma room_entry (w : list (vec3 A)) (p : sx A * sx A) (col : vec3 A) :
  In col w ->
  In (Le (dot3 (const3 col) (fst p, snd p, Const (of_Z 1))) (Const (of_Z 0)))
     (room w p).
Proof.
  intros Hin. unfold room, le_zero, mtimes_T.
  apply (in_map (fun e => Le e (Const (of_Z 0)))).
  apply (in_map (fun c => dot3 (const3 c) (fst p, snd p, Const (of_Z 1)))).
  exact Hin.
Qed.

Lemma room_length (w : list (vec3 A)) (p : sx A * sx A) :
  length (room w p) = length w.
Proof. unfold room, le_zero, mtimes_T. rewrite !length_map. reflexivity. Qed.

Lemma room_holds (w : list (vec3 A)) (p : sx A * sx A) (g : valuation A) (t : A) :
  (forall e, In e (room w p) -> holds g t e) <->
  (forall col, In col w ->
     num_le (dot3 col (eval g t (fst p), eval g t (snd p), of_Z 1)) (of_Z 0)).
Proof.
  split.
  - intros Hall [[a b] c] Hin.
    exact (Hall _ (room_entry w p (a, b, c) Hin)).
  - intros Hall e He. unfold room, le_zero, mtimes_T in He.
    apply in_map_iff in He as (e' & <- & He').
    apply in_map_iff in He' as ([[a b] c] & <- & Hin).
    exact (Hall _ Hin).
Qed.

(** After its five bounds, a created stage has the room constraints of the
    truck vertices and then those of the trailer vertices, and nothing
    else. *)
Lemma created_stage_rooms (t0v Tv : sx A) (h n N M : nat) (w : list (vec3 A)) :
  skipn 5 (constraints (created_stage t0v Tv n N M w))
  = map (room w) (truck_vertices (created_vars h n) ++
                  trailer_vertices (created_vars h n)).
Proof. rewrite map_app. reflexivity. Qed.

Lemma created_stage_corridor (t0v Tv : sx A) (h n N M : nat) (w : list (vec3 A)) :
  corridor_imposed (created_stage t0v Tv n N M w) (created_vars h n) w.
Proof.
  split; [apply created_stage_rooms|].
  intros p Hp.
  assert (Hin : In (room w p) (constraints (created_stage t0v Tv n N M w))).
  { rewrite <- (firstn_skipn 5 (constraints _)), (created_stage_rooms _ _ h).
    apply in_or_app. right. apply in_map. exact Hp. }
  split; [exact Hin|]. split; [apply room_length|].
  intros col Hcol. split; [apply room_entry; exact Hcol|].
  intros g t Hall.
  apply (proj1 (room_holds w p g t)); [|exact Hcol].
  intros e He. exact (Hall _ _ Hin He).
Qed.


Lemma problem_stages_run :
  problem_stages new_Ocp
  = Some ((created_vars 0 2, created_vars 1 12),
          {| fresh := 20; stages := [stage_1; stage_2];
             ocp_constraints := initial_constraints; solver := None |}).
Proof.
  unfold problem_stages.
  rewrite bind_create_stage.
  cbn -[create_stage].
  rewrite bind_create_stage.
  reflexivity.
Qed.

Lemma stitch_body_run (h1 h2 : nat) (s1 s2 : stage A) (i : nat) (x1 x2 : sx A)
    (o : Ocp A) :
  stages o !! h1 = Some s1 -> stages o !! h2 = Some s2 ->
  states s1 !! i = Some x1 -> states s2 !! i = Some x2 ->
  bind (state_of h2 i) (fun x2 =>
  bind (at_t0 h2 x2) (fun lhs =>
  bind (state_of h1 i) (fun x1 =>
  bind (at_tf h1 x1) (fun rhs =>
  ocp_subject_to [Eq lhs rhs])))) o
  = Some (tt, {| fresh := fresh o; stages := stages o;
                 ocp_constraints :=
                   ocp_constraints o ++ [[Eq (At (t0 s2) x2) (At (tf s1) x1)]];
                 solver := solver o |}).
Proof.
  intros H1 H2 Hx1 Hx2.
  unfold state_of, at_t0, at_tf, get_stage, bind, ret, ocp_subject_to, modify,
    lift_option.
  repeat (first [rewrite H1 | rewrite H2 | rewrite Hx1 | rewrite Hx2];
          unfold ret; cbn beta iota).
  reflexivity.
Qed.

Lemma stitch_loop (h1 h2 : nat) (s1 s2 : stage A) (o : Ocp A) :
  stages o !! h1 = Some s1 -> stages o !! h2 = Some s2 ->
  forall n a cs,
    a + n <= length (states s1) -> a + n <= length (states s2) ->
    for_each (seq a n) (fun i =>
      bind (state_of h2 i) (fun x2 =>
      bind (at_t0 h2 x2) (fun lhs =>
      bind (state_of h1 i) (fun x1 =>
      bind (at_tf h1 x1) (fun rhs =>
      ocp_subject_to [Eq lhs rhs])))))
      {| fresh := fresh o; stages := stages o;
         ocp_constraints := cs; solver := solver o |}
    = Some (tt, {| fresh := fresh o; stages := stages o;
                   ocp_constraints :=
                     cs ++ zip_with (fun x1 x2 => [Eq (At (t0 s2) x2) (At (tf s1) x1)])
                             (take n (drop a (states s1)))
                             (take n (drop a (states s2)));
                   solver := solver o |}).
Proof.
  intros H1 H2 n. induction n as [|n IH]; intros a cs Ha1 Ha2.
  - cbn. unfold ret. rewrite app_nil_r. reflexivity.
  - destruct (lookup_lt_is_Some_2 (states s1) a ltac:(lia)) as [x1 Hx1].
    destruct (lookup_lt_is_Some_2 (states s2) a ltac:(lia)) as [x2 Hx2].
    cbn [seq for_each]. unfold bind at 1.
    rewrite (stitch_body_run h1 h2 s1 s2 a x1 x2
               {| fresh := fresh o; stages := stages o;
                  ocp_constraints := cs; solver := solver o |}
               H1 H2 Hx1 Hx2).
    cbn [fresh stages ocp_constraints solver].
    rewrite (IH (S a)) by lia.
    rewrite (drop_S _ _ _ Hx1), (drop_S _ _ _ Hx2). cbn [take zip_with].
    rewrite <- app_assoc. reflexivity.
Qed.

(** [stitch_stages] on two stages of the store, the second with at least as
    many states as the first: it never raises, and it only adds the
    stitching constraints to the problem. *)
Lemma stitch_stages_run (h1 h2 : nat) (s1 s2 : stage A) (o : Ocp A) :
  stages o !! h1 = Some s1 -> stages o !! h2 = Some s2 ->
  length (states s1) <= length (states s2) ->
  stitch_stages h1 h2 o
  = Some (tt, {| fresh := fresh o; stages := stages o;
                 ocp_constraints := ocp_constraints o ++ stitching s1 s2;
                 solver := solver o |}).
Proof.
  intros H1 H2 Hlen. unfold stitch_stages.
  unfold bind at 1 2 3 4.
  unfold tf_of, t0_of, get_stage, ocp_subject_to, modify.
  unfold bind at 1 2. unfold ret.
  repeat (first [rewrite H1 | rewrite H2];
          cbn beta iota delta [fresh stages ocp_constraints solver]).
  rewrite (stitch_loop h1 h2 s1 s2 o H1 H2) by (cbn; lia).
  rewrite !drop_0, firstn_all, zip_with_take_r, <- app_assoc.
  reflexivity.
Qed.

Lemma problem_run :
  problem new_Ocp
  = Some ((created_vars 0 2, created_vars 1 12),
          {| fresh := 20; stages := [stage_1; stage_2];
             ocp_constraints :=
               initial_constraints ++ stitching stage_1 stage_2 ++ final_constraints;
             solver := Some ("ipopt"%string, options) |}).
Proof.
  unfold problem. unfold bind at 1. rewrite problem_stages_run.
  cbn beta iota. unfold bind at 1.
  rewrite (stitch_stages_run 0 1 stage_1 stage_2) by (cbn; reflexivity || lia).
  reflexivity.
Qed.

(** C2: in the problem, [stitch_stages] acts on the two stages as they are
    after [create_stage]; it does not raise and changes nothing but the
    constraints of the problem, to which it appends the equality of stage 1's
    final time with stage 2's initial time, followed, for each state index
    of stage 1, by the equality of stage 2's state at its initial time with
    stage 1's state at its final time.  The two stages have the same
    number of states, so every state is matched, and a solution that
    satisfies the constraints has the same time and the same state vector
    on both sides of the junction. *)
Theorem stitch_stages_continuity :
  exists s1 s2 o stg1 stg2 o',
    problem_stages new_Ocp = Some ((s1, s2), o) /\
    stages o !! r_stage s1 = Some stg1 /\
    stages o !! r_stage s2 = Some stg2 /\
    stitch_stages (r_stage s1) (r_stage s2) o = Some (tt, o') /\
    fresh o' = fresh o /\ stages o' = stages o /\ solver o' = solver o /\
    ocp_constraints o'
    = ocp_constraints o
      ++ [Eq (tf stg1) (t0 stg2)]
         :: zip_with (fun x1 x2 => [Eq (At (t0 stg2) x2) (At (tf stg1) x1)])
              (states stg1) (states stg2) /\
    length (states stg1) = length (states stg2) /\
    forall (g : valuation A) (t : A),
      all_hold g t (ocp_constraints o') ->
      eval g t (tf stg1) = eval g t (t0 stg2) /\
      forall i x1 x2,
        states stg1 !! i = Some x1 -> states stg2 !! i = Some x2 ->
        eval g (eval g t (t0 stg2)) x2 = eval g (eval g t (tf stg1)) x1.
Proof.
  exists (created_vars 0 2), (created_vars 1 12).
  eexists. exists stage_1, stage_2. eexists.
  split; [apply problem_stages_run|].
  split; [reflexivity|]. split; [reflexivity|].
  split; [apply (stitch_stages_run 0 1 stage_1 stage_2); cbn; reflexivity || lia|].
  cbn [fresh stages solver ocp_constraints].
  split; [reflexivity|]. split; [reflexivity|]. split; [reflexivity|].
  split; [reflexivity|]. split; [reflexivity|].
  intros g t Hall. split.
  - refine (Hall [Eq (tf stage_1) (t0 stage_2)] (Eq (tf stage_1) (t0 stage_2))
              _ (or_introl eq_refl)).
    apply in_or_app. right. left. reflexivity.
  - intros i x1 x2 Hx1 Hx2.
    refine (Hall [Eq (At (t0 stage_2) x2) (At (tf stage_1) x1)]
              (Eq (At (t0 stage_2) x2) (At (tf stage_1) x1)) _ (or_introl eq_refl)).
    apply in_or_app. right. right.
    apply list_elem_of_In, list_elem_of_lookup. exists i.
    apply lookup_zip_with_Some. exists x1, x2. auto.
Qed.

(** C3: each of the two stages of the problem has a corridor matrix of
    three half-planes, [w1_1, w2_1, w1_2] for stage 1 and
    [w1_2, w2_2, w1_1] for stage 2; after its five bounds the stage has
    one room constraint for each vertex of the truck footprint and of the
    trailer footprint and nothing else; the room constraint of a vertex
    [p] has one inequality [w . (px, py, 1) <= 0] for each column [w] of
    the matrix, and these inequalities hold wherever the constraints of
    the stage hold. *)
Theorem problem_corridors :
  exists s1 s2 o stg1 stg2,
    problem new_Ocp = Some ((s1, s2), o) /\
    stages o !! r_stage s1 = Some stg1 /\
    stages o !! r_stage s2 = Some stg2 /\
    length [w1_1; w2_1; w1_2] = 3 /\
    length [w1_2; w2_2; w1_1] = 3 /\
    corridor_imposed stg1 s1 [w1_1; w2_1; w1_2] /\
    corridor_imposed stg2 s2 [w1_2; w2_2; w1_1].
Proof.
  exists (created_vars 0 2), (created_vars 1 12).
  eexists. exists stage_1, stage_2.
  split; [apply problem_run|].
  split; [reflexivity|]. split; [reflexivity|].
  split; [reflexivity|]. split; [reflexivity|].
  split; apply created_stage_corridor.
Qed.

End CreateStageFacts.

(* ===================================================================== *)
(** ** Properties of the simulation loop *)
(* ===================================================================== *)

(** A loop whose body keeps an invariant runs to its end and leaves it. *)
Lemma for_each_invariant {S} (P : nat -> S -> Prop)
    (body : nat -> Build S unit) (n a : nat) (s : S) :
  P a s ->
  (forall k s0, a <= k < a + n -> P k s0 ->
     exists s1, body k s0 = Some (tt, s1) /\ P (Datatypes.S k) s1) ->
  exists s', for_each (seq a n) body s = Some (tt, s') /\ P (a + n) s'.
Proof.
  revert a s. induction n as [|n IH]; intros a s Ha Hstep.
  - exists s. rewrite Nat.add_0_r. split; [reflexivity | exact Ha].
  - destruct (Hstep a s ltac:(lia) Ha) as (s1 & Hrun & H1).
    destruct (IH (Datatypes.S a) s1 H1) as (s' & Hloop & H').
    { intros k s0 Hk. apply Hstep. lia. }
    exists s'. cbn [seq for_each]. unfold bind. rewrite Hrun.
    split; [exact Hloop|]. replace (a + Datatypes.S n) with (Datatypes.S a + n) by lia.
    exact H'.
Qed.

Lemma set_item_in_range {A} (a : list A) (i : nat) (v : A) :
  i < length a -> set_item a i v = Some (<[i := v]> a).
Proof.
  intros Hi. unfold set_item.
  rewrite (proj2 (Nat.ltb_lt i (length a)) Hi). reflexivity.
Qed.

Section SimulationFacts.
Context {A : Type} {SA : Scalar A} {TA : Trig A} {PA : HasPi A} {OA : Order A}.
Variable para : params A.
Variable Simu : Type.
Variable simulator_delta_init : Simu.
Variable simulator : Simu -> vec4 A -> vec2 A -> A -> vec4 A.

Local Abbreviation sim_step := (sim_step para Simu simulator).
Local Abbreviation simulate := (simulate para Simu simulator_delta_init simulator).
Local Abbreviation logged := (logged para Simu simulator_delta_init simulator).
Local Abbreviation sim_invariant :=
  (sim_invariant para Simu simulator_delta_init simulator).
Local Abbreviation L1 := (L1 para).
Local Abbreviation M0 := (M0 para).

(** What one pass does to the variables, when it does not raise. *)
Lemma sim_step_effect (simu : Simu) (k : nat) (s s' : sim_state A) :
  sim_step simu k s = Some (tt, s') ->
  exists th0s th1s th0c th1c d0 v0 tk1 tk,
    theta0_sim s !! k = Some th0s /\ theta1_sim s !! k = Some th1s /\
    theta0_ctrl (plan s) !! k = Some th0c /\ theta1_ctrl (plan s) !! k = Some th1c /\
    delta0_ctrl (plan s) !! k = Some d0 /\ v0_ctrl (plan s) !! k = Some v0 /\
    ctrl_t (plan s) !! (k + 1) = Some tk1 /\ ctrl_t (plan s) !! k = Some tk /\
    let call := {| call_k := k; beta01_sim := (th0s - th1s)%num;
                   beta01_ctrl := (th0c - th1c)%num;
                   error := ((th0c - th1c) - (th0s - th1s))%num;
                   call_x := x_current s; call_u := (d0, v0);
                   call_dt := (tk1 - tk)%num |} in
    let x_next := simulator simu (x_current s) (d0, v0) (tk1 - tk)%num in
    k + 1 < length (theta1_sim s) /\ k + 1 < length (x1_sim s) /\
    k + 1 < length (y1_sim s) /\ k + 1 < length (theta0_sim s) /\
    k + 1 < length (x0_sim s) /\ k + 1 < length (y0_sim s) /\
    s' = {| plan := plan s;
            theta1_sim := <[k + 1 := x_next.1.1.1]> (theta1_sim s);
            x1_sim := <[k + 1 := x_next.1.1.2]> (x1_sim s);
            y1_sim := <[k + 1 := x_next.1.2]> (y1_sim s);
            theta0_sim := <[k + 1 := x_next.2]> (theta0_sim s);
            x0_sim := <[k + 1 := (x_next.1.1.2 + L1 * cos x_next.1.1.1
                                  + M0 * cos x_next.2)%num]> (x0_sim s);
            y0_sim := <[k + 1 := (x_next.1.2 + L1 * sin x_next.1.1.1
                                  + M0 * sin x_next.2)%num]> (y0_sim s);
            x_current := x_next;
            calls := calls s ++ [call] |}.
Proof.
  unfold sim_step, set_item. intros Hrun.
  destruct (theta0_sim s !! k) as [th0s|]; [|discriminate].
  destruct (theta1_sim s !! k) as [th1s|]; [|discriminate].
  destruct (theta0_ctrl (plan s) !! k) as [th0c|]; [|discriminate].
  destruct (theta1_ctrl (plan s) !! k) as [th1c|]; [|discriminate].
  destruct (delta0_ctrl (plan s) !! k) as [d0|]; [|discriminate].
  destruct (v0_ctrl (plan s) !! k) as [v0|]; [|discriminate].
  destruct (ctrl_t (plan s) !! (k + 1)) as [tk1|]; [|discriminate].
  destruct (ctrl_t (plan s) !! k) as [tk|]; [|discriminate].
  destruct (simulator simu (x_current s) (d0, v0) (tk1 - tk)%num)
    as [[[xn0 xn1] xn2] xn3] eqn:Hnext.
  destruct (k + 1 <? length (theta1_sim s)) eqn:E1; [|discriminate].
  destruct (k + 1 <? length (x1_sim s)) eqn:E2; [|discriminate].
  destruct (k + 1 <? length (y1_sim s)) eqn:E3; [|discriminate].
  destruct (k + 1 <? length (theta0_sim s)) eqn:E4; [|discriminate].
  destruct (k + 1 <? length (x0_sim s)) eqn:E5; [|discriminate].
  destruct (k + 1 <? length (y0_sim s)) eqn:E6; [|discriminate].
  apply Nat.ltb_lt in E1, E2, E3, E4, E5, E6.
  injection Hrun as <-.
  exists th0s, th1s, th0c, th1c, d0, v0, tk1, tk.
  cbn zeta. rewrite Hnext. cbn [fst snd].
  repeat split; auto.
Qed.

Lemma sim_step_runs (simu : Simu) (k : nat) (s : sim_state A) :
  each_sim (fun a => k + 1 < length a) s ->
  k + 1 < length (theta0_ctrl (plan s)) -> k + 1 < length (theta1_ctrl (plan s)) ->
  k + 1 < length (delta0_ctrl (plan s)) -> k + 1 < length (v0_ctrl (plan s)) ->
  k + 1 < length (ctrl_t (plan s)) ->
  exists s', sim_step simu k s = Some (tt, s').
Proof.
  intros (L1 & L2 & L3 & L4 & L5 & L6) C1 C2 C3 C4 C5.
  destruct (lookup_lt_is_Some_2 (theta0_sim s) k ltac:(lia)) as [? E1].
  destruct (lookup_lt_is_Some_2 (theta1_sim s) k ltac:(lia)) as [? E2].
  destruct (lookup_lt_is_Some_2 (theta0_ctrl (plan s)) k ltac:(lia)) as [? E3].
  destruct (lookup_lt_is_Some_2 (theta1_ctrl (plan s)) k ltac:(lia)) as [? E4].
  destruct (lookup_lt_is_Some_2 (delta0_ctrl (plan s)) k ltac:(lia)) as [? E5].
  destruct (lookup_lt_is_Some_2 (v0_ctrl (plan s)) k ltac:(lia)) as [? E6].
  destruct (lookup_lt_is_Some_2 (ctrl_t (plan s)) (k + 1) ltac:(lia)) as [? E7].
  destruct (lookup_lt_is_Some_2 (ctrl_t (plan s)) k ltac:(lia)) as [? E8].
  unfold sim_step. rewrite E1, E2, E3, E4, E5, E6, E7, E8.
  destruct (simulator simu _ _ _) as [[[xn0 xn1] xn2] xn3].
  rewrite !set_item_in_range by assumption.
  eexists. reflexivity.
Qed.

Lemma aligned_lengths (c : ctrl A) :
  aligned c ->
  length (theta1_ctrl c) = Nsim c /\ length (theta0_ctrl c) = Nsim c /\
  length (delta0_ctrl c) = Nsim c /\ length (v0_ctrl c) = Nsim c.
Proof.
  unfold aligned, Nsim. rewrite !Forall_cons. tauto.
Qed.

Lemma sim_init_invariant (c : ctrl A) : sim_invariant c 0 (sim_init c).
Proof.
  unfold sim_invariant, each_sim, sim_init, zeros.
  cbn [plan theta1_sim x1_sim y1_sim theta0_sim x0_sim y0_sim calls x_current].
  rewrite !length_replicate.
  split; [reflexivity|]. split; [tauto|].
  split.
  { intros j Hj _. repeat split; apply lookup_replicate_2; exact Hj. }
  split; [reflexivity|].
  split; [intros k call Hk; rewrite lookup_nil in Hk; discriminate|].
  split; [intros call Hk; rewrite lookup_nil in Hk; discriminate|].
  reflexivity.
Qed.

Lemma lookup_singleton_Some {B} (x y : B) (i : nat) :
  [x] !! i = Some y -> i = 0 /\ y = x.
Proof. destruct i as [|i]; cbn; [intros [= <-]; auto | discriminate]. Qed.

(** One more pass, when there is one left, does not raise and keeps the
    invariant. *)
Lemma sim_invariant_step (c : ctrl A) (m : nat) (s : sim_state A) :
  aligned c -> m + 1 < Nsim c -> sim_invariant c m s ->
  exists s', sim_step simulator_delta_init m s = Some (tt, s') /\
             sim_invariant c (S m) s'.
Proof.
  intros Hal Hm (Hplan & Hlen & Hzero & Hcalls & Hlog & Hfirst & Hcur).
  destruct (aligned_lengths c Hal) as (A1 & A2 & A3 & A4).
  pose proof Hlen as (G1 & G2 & G3 & G4 & G5 & G6).
  destruct (sim_step_runs simulator_delta_init m s) as [s' Hrun];
    try (rewrite Hplan; unfold Nsim in *; lia).
  { unfold each_sim. rewrite G1, G2, G3, G4, G5, G6. tauto. }
  exists s'. split; [exact Hrun|].
  apply sim_step_effect in Hrun
    as (th0s & th1s & th0c & th1c & d0 & v0 & tk1 & tk
        & E1 & E2 & E3 & E4 & E5 & E6 & E7 & E8 & Hs').
  cbn zeta in Hs'. destruct Hs' as (_ & _ & _ & _ & _ & _ & ->).
  rewrite Hplan in *.
  unfold sim_invariant, each_sim.
  cbn [plan theta1_sim x1_sim y1_sim theta0_sim x0_sim y0_sim calls x_current].
  split; [reflexivity|].
  split; [rewrite !length_insert; tauto|].
  split.
  { intros j Hj Hcase. rewrite !list_lookup_insert_ne by lia.
    apply Hzero; [exact Hj | lia]. }
  split; [rewrite length_app, Hcalls; cbn; lia|].
  split.
  { intros k call Hk. apply lookup_app_Some in Hk as [Hk | [Hge Hk]].
    - destruct (Hlog k call Hk) as (K1 & K2 & K3 & K4).
      apply lookup_lt_Some in Hk. rewrite Hcalls in Hk.
      split; [exact K1|]. split; [exact K2|]. split; [exact K3|].
      unfold logged in *.
      destruct (simulator simulator_delta_init _ _ _) as [[[xn0 xn1] xn2] xn3].
      cbn [plan theta1_sim x1_sim y1_sim theta0_sim x0_sim y0_sim].
      rewrite !list_lookup_insert_ne by lia. exact K4.
    - apply lookup_singleton_Some in Hk as [Hk ->].
      rewrite Hcalls in *. assert (k = m) as -> by lia.
      cbn [call_k call_u call_x call_dt fst snd].
      split; [reflexivity|]. split; [exact E5|]. split; [exact E6|].
      unfold logged. cbn [call_k call_u call_x call_dt].
      destruct (simulator simulator_delta_init _ _ _) as [[[xn0 xn1] xn2] xn3].
      cbn [plan theta1_sim x1_sim y1_sim theta0_sim x0_sim y0_sim fst snd].
      rewrite !list_lookup_insert_eq by lia. tauto. }
  split.
  { intros call Hk. apply lookup_app_Some in Hk as [Hk | [Hge Hk]].
    - exact (Hfirst call Hk).
    - apply lookup_singleton_Some in Hk as [_ ->].
      rewrite Hcalls in Hge. assert (m = 0) as -> by lia.
      destruct (Hzero 0 ltac:(lia) ltac:(auto)) as (Z1 & _ & _ & Z4 & _).
      rewrite Z4 in E1. rewrite Z1 in E2.
      injection E1 as <-. injection E2 as <-.
      cbn [beta01_sim call_x]. split; [reflexivity | apply Hcur; reflexivity]. }
  discriminate.
Qed.

Lemma simulate_invariant (c : ctrl A) :
  aligned c ->
  exists s, simulate c = Some s /\ sim_invariant c (Nsim c - 1) s.
Proof.
  intros Hal. unfold simulate.
  destruct (for_each_invariant (sim_invariant c) (sim_step simulator_delta_init)
              (Nsim c - 1) 0 (sim_init c) (sim_init_invariant c))
    as (s & Hrun & Hinv).
  { intros k s0 Hk Hinv. apply sim_invariant_step; [exact Hal | lia | exact Hinv]. }
  exists s. rewrite Hrun. split; [reflexivity | exact Hinv].
Qed.

(** C8: on a plan whose arrays have the length of the time array, the
    simulation does not raise; it makes [Nsim - 1] passes; the input given
    to the integrator in pass [k] is the pair
    [(delta0_ctrl[k], v0_ctrl[k])] of the plan; and the plan is the same
    after the loop as before.  In every pass the articulation error is
    computed, and the pass leaves the plan as it found it. *)
Theorem simulate_applies_plan (c : ctrl A) :
  aligned c ->
  exists s,
    simulate c = Some s /\
    plan s = c /\
    length (calls s) = Nsim c - 1 /\
    (forall k, k < Nsim c - 1 ->
       exists call d v,
         calls s !! k = Some call /\ call_k call = k /\
         delta0_ctrl c !! k = Some d /\ v0_ctrl c !! k = Some v /\
         call_u call = (d, v)) /\
    (forall simu k s0 s1,
       sim_step simu k s0 = Some (tt, s1) ->
       plan s1 = plan s0 /\
       exists call,
         calls s1 = calls s0 ++ [call] /\
         error call = (beta01_ctrl call - beta01_sim call)%num /\
         delta0_ctrl (plan s0) !! k = Some (fst (call_u call)) /\
         v0_ctrl (plan s0) !! k = Some (snd (call_u call))).
Proof.
  intros Hal.
  destruct (simulate_invariant c Hal)
    as (s & Hrun & Hplan & _ & _ & Hcalls & Hlog & _).
  exists s. split; [exact Hrun|]. split; [exact Hplan|]. split; [exact Hcalls|].
  split.
  - intros k Hk.
    destruct (lookup_lt_is_Some_2 (calls s) k ltac:(lia)) as [call Hcall].
    destruct (Hlog k call Hcall) as (K1 & K2 & K3 & _).
    exists call, (fst (call_u call)), (snd (call_u call)).
    repeat split; try assumption. destruct (call_u call); reflexivity.
  - intros simu k s0 s1 Hstep.
    apply sim_step_effect in Hstep
      as (th0s & th1s & th0c & th1c & d0 & v0 & tk1 & tk
          & _ & _ & _ & _ & E5 & E6 & _ & _ & Hs1).
    cbn zeta in Hs1. destruct Hs1 as (_ & _ & _ & _ & _ & _ & ->).
    cbn [plan calls]. split; [reflexivity|].
    eexists. split; [reflexivity|].
    cbn [error beta01_ctrl beta01_sim call_u fst snd]. auto.
Qed.

(** C10: on a plan whose arrays have the length of the time array and
    that has at least one time point, the simulation leaves the entry 0 of
    each of the six logging arrays at the zero it was created with, while
    the state the integrator starts from is
    [(pi/2, 0, 0, pi/2)]; every pass [k] writes the entries [k + 1] only;
    when there is a first pass, the simulated articulation angle it
    computes is [0 - 0] and the state it gives to the integrator is the
    initial one; so, [pi/2] not being [0], the first logged headings are
    not the initial headings. *)
Theorem simulate_first_sample (c : ctrl A) :
  aligned c -> 0 < Nsim c ->
  exists s,
    simulate c = Some s /\
    each_sim (fun a => a !! 0 = Some (of_Q 0)) s /\
    x_current (sim_init c)
    = ((pi / of_Z 2)%num, of_Q 0, of_Q 0, (pi / of_Z 2)%num) /\
    (forall simu k s0 s1 j,
       sim_step simu k s0 = Some (tt, s1) -> j <> k + 1 ->
       theta1_sim s1 !! j = theta1_sim s0 !! j /\
       x1_sim s1 !! j = x1_sim s0 !! j /\
       y1_sim s1 !! j = y1_sim s0 !! j /\
       theta0_sim s1 !! j = theta0_sim s0 !! j /\
       x0_sim s1 !! j = x0_sim s0 !! j /\
       y0_sim s1 !! j = y0_sim s0 !! j) /\
    (1 < Nsim c ->
       exists call,
         calls s !! 0 = Some call /\
         beta01_sim call = (of_Q 0 - of_Q 0)%num /\
         call_x call = x_current (sim_init c)) /\
    ((pi / of_Z 2)%num <> of_Q 0 ->
       theta1_sim s !! 0 <> Some (theta1_t0 : A) /\
       theta0_sim s !! 0 <> Some (theta0_t0 : A)).
Proof.
  intros Hal Hpos.
  destruct (simulate_invariant c Hal)
    as (s & Hrun & _ & _ & Hzero & Hcalls & _ & Hfirst & _).
  pose proof (Hzero 0 Hpos (or_introl eq_refl)) as Hz.
  exists s. split; [exact Hrun|]. split; [exact Hz|]. split; [reflexivity|].
  split.
  { intros simu k s0 s1 j Hstep Hj.
    apply sim_step_effect in Hstep
      as (th0s & th1s & th0c & th1c & d0 & v0 & tk1 & tk
          & _ & _ & _ & _ & _ & _ & _ & _ & Hs1).
    cbn zeta in Hs1. destruct Hs1 as (_ & _ & _ & _ & _ & _ & ->).
    cbn [theta1_sim x1_sim y1_sim theta0_sim x0_sim y0_sim].
    rewrite !list_lookup_insert_ne by lia. tauto. }
  split.
  { intros Hmore.
    destruct (lookup_lt_is_Some_2 (calls s) 0 ltac:(lia)) as [call Hcall].
    exists call. split; [exact Hcall|]. exact (Hfirst call Hcall). }
  intros Hne. destruct Hz as (Z1 & _ & _ & Z4 & _).
  rewrite Z1, Z4. unfold theta1_t0, theta0_t0.
  split; intros [= E]; apply Hne; symmetry; exact E.
Qed.

End SimulationFacts.

(* ===================================================================== *)
(** ** Properties of the script as a whole *)
(* ===================================================================== *)

Section ScriptFacts.
Context {A : Type} {SA : Scalar A} {TA : Trig A} {PA : HasPi A} {OA : Order A}.
Variable para : params A.
Variable vert_vehic :
  sx A -> sx A -> sx A -> A -> A -> A -> A -> list (sx A * sx A).
Variable Simu : Type.
Variable simulator_delta_init : Simu.
Variable simulator : Simu -> vec4 A -> vec2 A -> A -> vec4 A.
Variable nlp : Ocp A -> solution A.
Variable error_on_fail_default : bool.
Variable dump : string -> value A -> result unit.

Local Abbreviation create_stage := (create_stage para vert_vehic).
Local Abbreviation problem := (problem para vert_vehic).
Local Abbreviation simulate := (simulate para Simu simulator_delta_init simulator).
Local Abbreviation truck_xy := (truck_xy para).
Local Abbreviation solve_ocp := (solve_ocp nlp error_on_fail_default).
Local Abbreviation error_on_fail := (error_on_fail error_on_fail_default).
Local Abbreviation script :=
  (script para vert_vehic Simu simulator_delta_init simulator nlp
     error_on_fail_default dump).

(** C9: in every stage that [create_stage] builds, the states are the four
    signals [theta1, x1, y1, theta0] drawn by [state()] followed by the two
    controls of order 1; the truck position [(x0, y0)] is none of them and
    no symbol at all, but at every time of every solution the value of
    [truck_xy] at the values of the four states.  The simulation rebuilds
    the truck position with the same [truck_xy]: it calls the integrator
    [Nsim - 1] times, once for every [k] below [Nsim - 1], and what pass
    [k] logs at [k + 1] is the state [(theta1, x1, y1, theta0)] that the
    integrator returned, and [truck_xy] of it; every single pass that does
    not raise calls the integrator on the current state, the planned input
    and the time step, logs the returned state and [truck_xy] of it at
    [k + 1], and keeps that state as the current one. *)
Theorem truck_position_is_derived :
  (forall (t0 T : time_spec A) (N M : nat) (w : list (vec3 A)) (o : Ocp A),
     exists r o' stg,
       create_stage t0 T N M w o = Some (r, o') /\
       stages o' !! r_stage r = Some stg /\
       states stg
       = [r_theta1 r; r_x1 r; r_y1 r; r_theta0 r] ++ [r_delta0 r; r_v0 r] /\
       ~ In (r_x0 r) (states stg) /\ ~ In (r_y0 r) (states stg) /\
       (forall n, r_x0 r <> Sym n /\ r_y0 r <> Sym n) /\
       forall (g : valuation A) (t : A),
         (eval g t (r_x0 r), eval g t (r_y0 r))
         = truck_xy (eval g t (r_theta1 r)) (eval g t (r_x1 r))
             (eval g t (r_y1 r)) (eval g t (r_theta0 r))) /\
  (forall c : ctrl A,
     aligned c ->
     exists s,
       simulate c = Some s /\
       length (calls s) = Nsim c - 1 /\
       (forall k, k + 1 < Nsim c ->
          exists call,
            calls s !! k = Some call /\
            let '(theta1, x1, y1, theta0) :=
              simulator simulator_delta_init (call_x call) (call_u call)
                (call_dt call) in
            theta1_sim s !! (k + 1) = Some theta1 /\
            x1_sim s !! (k + 1) = Some x1 /\
            y1_sim s !! (k + 1) = Some y1 /\
            theta0_sim s !! (k + 1) = Some theta0 /\
            x0_sim s !! (k + 1) = Some (fst (truck_xy theta1 x1 y1 theta0)) /\
            y0_sim s !! (k + 1) = Some (snd (truck_xy theta1 x1 y1 theta0))) /\
       forall k call,
         calls s !! k = Some call ->
         let '(theta1, x1, y1, theta0) :=
           simulator simulator_delta_init (call_x call) (call_u call) (call_dt call) in
         theta1_sim s !! (k + 1) = Some theta1 /\
         x1_sim s !! (k + 1) = Some x1 /\
         y1_sim s !! (k + 1) = Some y1 /\
         theta0_sim s !! (k + 1) = Some theta0 /\
         x0_sim s !! (k + 1) = Some (fst (truck_xy theta1 x1 y1 theta0)) /\
         y0_sim s !! (k + 1) = Some (snd (truck_xy theta1 x1 y1 theta0))) /\
  (forall (simu : Simu) (k : nat) (s0 s1 : sim_state A),
     sim_step para Simu simulator simu k s0 = Some (tt, s1) ->
     exists d0 v0 tk tk1,
       delta0_ctrl (plan s0) !! k = Some d0 /\
       v0_ctrl (plan s0) !! k = Some v0 /\
       ctrl_t (plan s0) !! k = Some tk /\
       ctrl_t (plan s0) !! (k + 1) = Some tk1 /\
       let '(theta1, x1, y1, theta0) :=
         simulator simu (x_current s0) (d0, v0) (tk1 - tk)%num in
       x_current s1 = (theta1, x1, y1, theta0) /\
       theta1_sim s1 !! (k + 1) = Some theta1 /\
       x1_sim s1 !! (k + 1) = Some x1 /\
       y1_sim s1 !! (k + 1) = Some y1 /\
       theta0_sim s1 !! (k + 1) = Some theta0 /\
       x0_sim s1 !! (k + 1) = Some (fst (truck_xy theta1 x1 y1 theta0)) /\
       y0_sim s1 !! (k + 1) = Some (snd (truck_xy theta1 x1 y1 theta0))).
Proof.
  split; [|split].
  - intros t0 T N M w o. rewrite create_stage_run. do 3 eexists.
    split; [reflexivity|]. cbn [r_stage created_vars stages].
    split; [apply lookup_new_stage|].
    split; [reflexivity|].
    split; [cbn; intuition discriminate|].
    split; [cbn; intuition discriminate|].
    split; [intros n; split; discriminate|].
    intros g t. reflexivity.
  - intros c Hal.
    destruct (simulate_invariant para Simu simulator_delta_init simulator c Hal)
      as (s & Hrun & _ & _ & _ & Hcalls & Hlog & _).
    assert (Hl : forall k call, calls s !! k = Some call ->
              let '(theta1, x1, y1, theta0) :=
                simulator simulator_delta_init (call_x call) (call_u call)
                  (call_dt call) in
              theta1_sim s !! (k + 1) = Some theta1 /\
              x1_sim s !! (k + 1) = Some x1 /\
              y1_sim s !! (k + 1) = Some y1 /\
              theta0_sim s !! (k + 1) = Some theta0 /\
              x0_sim s !! (k + 1) = Some (fst (truck_xy theta1 x1 y1 theta0)) /\
              y0_sim s !! (k + 1) = Some (snd (truck_xy theta1 x1 y1 theta0))).
    { intros k call Hcall. destruct (Hlog k call Hcall) as (_ & _ & _ & Hl).
      unfold logged in Hl.
      destruct (simulator simulator_delta_init _ _ _) as [[[th1 x1] y1] th0].
      exact Hl. }
    exists s. split; [exact Hrun|]. split; [exact Hcalls|]. split; [|exact Hl].
    intros k Hk.
    destruct (lookup_lt_is_Some_2 (calls s) k ltac:(lia)) as [call Hcall].
    exists call. split; [exact Hcall | exact (Hl k call Hcall)].
  - intros simu k s0 s1 Hstep.
    apply sim_step_effect in Hstep
      as (th0s & th1s & th0c & th1c & d0 & v0 & tk1 & tk
          & _ & _ & _ & _ & E5 & E6 & E7 & E8 & Hs1).
    cbn zeta in Hs1. destruct Hs1 as (B1 & B2 & B3 & B4 & B5 & B6 & ->).
    exists d0, v0, tk, tk1.
    split; [exact E5|]. split; [exact E6|]. split; [exact E8|].
    split; [exact E7|].
    cbn [x_current theta1_sim x1_sim y1_sim theta0_sim x0_sim y0_sim].
    destruct (simulator simu (x_current s0) (d0, v0) (tk1 - tk)%num)
      as [[[xn0 xn1] xn2] xn3].
    cbn [fst snd].
    rewrite !list_lookup_insert_eq by assumption.
    repeat split; reflexivity.
Qed.


Lemma sample_ctrl_run (s1 s2 : stage_vars A) (gist : valuation A) (t1c t2c : list A) :
  exists c,
    sample_ctrl s1 s2 gist t1c t2c = Some c /\
    ctrl_t c = t1c ++ t2c /\ aligned c.
Proof.
  unfold sample_ctrl, sampler1, sampler2, sampler. cbn [map].
  eexists. split; [reflexivity|]. split; [reflexivity|].
  unfold aligned.
  cbn [theta1_ctrl x1_ctrl y1_ctrl theta0_ctrl x0_ctrl y0_ctrl delta0_ctrl
       v0_ctrl ctrl_t].
  repeat constructor; rewrite !length_app, !length_map; reflexivity.
Qed.

Lemma resample_inv (s1 s2 : stage_vars A) (sol : solution A) (c : ctrl A) :
  resample s1 s2 sol = Some c ->
  t_ctrl (t1_sol sol) (t2_sol sol) = Some (ctrl_t c) /\ aligned c.
Proof.
  unfold resample, t_ctrl.
  destruct (t1_ctrl (t1_sol sol)) as [t1c|]; [|discriminate].
  destruct (t2_ctrl (t1_sol sol) (t2_sol sol)) as [t2c|]; [|discriminate].
  destruct (sample_ctrl_run s1 s2 (gist_sol sol) t1c t2c) as (c' & -> & Ht & Hal).
  intros [= <-]. rewrite Ht. auto.
Qed.

(** The arrays of the document are the arrays of the plan. *)
Lemma result_yaml_arrays (c : ctrl A) :
  arrays_of (result_yaml c)
  = [x1_ctrl c; y1_ctrl c; theta1_ctrl c; x0_ctrl c; y0_ctrl c; theta0_ctrl c;
     delta0_ctrl c; v0_ctrl c; ctrl_t c].
Proof. reflexivity. Qed.

(** What the script does when it returns: it has written the document of
    the plan it returns. *)
Lemma script_inv (b : bool) (c : ctrl A) (sim : option (sim_state A)) :
  script b = Ok (c, sim) ->
  aligned c /\ dump "truck_trailer_x_u.yaml" (result_yaml c) = Ok tt.
Proof.
  unfold script.
  destruct (problem new_Ocp) as [[[s1 s2] o]|]; cbn; [|discriminate].
  destruct (solve_ocp o) as [sol|]; cbn; [|discriminate].
  destruct (resample s1 s2 sol) as [c'|] eqn:Hc; cbn; [|discriminate].
  destruct (dump _ (result_yaml c')) as [[]|] eqn:Hd; cbn; [|discriminate].
  apply resample_inv in Hc as [_ Hal].
  destruct b; [destruct (simulate c'); cbn|];
    intros [= <- <-] || discriminate; auto.
Qed.

(** C6: whatever the stages, the solution and the two grids, resampling
    gives a plan [c] whose time array is the concatenation of the grids and
    whose eight signal arrays have its length.  The document
    [result_yaml c] has the keys [x], [u] and [t] and no other; [x] has the
    six arrays [px1, py1, theta1, px0, py0, theta0], [u] the two arrays
    [delta] and [v_l], and [t] is the time array; these nine arrays all
    have the number of time points as their length.  This document is what
    the script writes when it runs to its end. *)
Theorem result_yaml_shape (s1 s2 : stage_vars A) (gist : valuation A)
    (t1c t2c : list A) :
  exists c,
    sample_ctrl s1 s2 gist t1c t2c = Some c /\
    ctrl_t c = t1c ++ t2c /\
    dict_keys (result_yaml c) = ["x"; "u"; "t"]%string /\
    (exists x u,
       get_item "x" (result_yaml c) = Some x /\
       dict_keys x = ["px1"; "py1"; "theta1"; "px0"; "py0"; "theta0"]%string /\
       arrays_of x = [x1_ctrl c; y1_ctrl c; theta1_ctrl c;
                      x0_ctrl c; y0_ctrl c; theta0_ctrl c] /\
       get_item "u" (result_yaml c) = Some u /\
       dict_keys u = ["delta"; "v_l"]%string /\
       arrays_of u = [delta0_ctrl c; v0_ctrl c]) /\
    get_item "t" (result_yaml c) = Some (VArr (ctrl_t c)) /\
    length (arrays_of (result_yaml c)) = 9 /\
    Forall (fun a => length a = length (t1c ++ t2c)) (arrays_of (result_yaml c)) /\
    (forall sol c',
       resample s1 s2 sol = Some c' ->
       t_ctrl (t1_sol sol) (t2_sol sol) = Some (ctrl_t c') /\
       Forall (fun a => length a = length (ctrl_t c')) (arrays_of (result_yaml c'))) /\
    (forall b c' sim,
       script b = Ok (c', sim) ->
       dump "truck_trailer_x_u.yaml" (result_yaml c') = Ok tt /\
       Forall (fun a => length a = length (ctrl_t c')) (arrays_of (result_yaml c'))).
Proof.
  assert (Hall : forall c : ctrl A, aligned c ->
            Forall (fun a => length a = length (ctrl_t c)) (arrays_of (result_yaml c))).
  { intros c Hal. rewrite result_yaml_arrays. unfold aligned in Hal.
    rewrite !Forall_cons in *. tauto. }
  destruct (sample_ctrl_run s1 s2 gist t1c t2c) as (c & Hc & Ht & Hal).
  exists c. split; [exact Hc|]. split; [exact Ht|]. split; [reflexivity|].
  split; [do 2 eexists; repeat split; reflexivity|].
  split; [reflexivity|]. split; [reflexivity|].
  split; [rewrite <- Ht; apply Hall, Hal|].
  split.
  - intros sol c' Hc'. apply resample_inv in Hc' as [Hgrid Hal'].
    split; [exact Hgrid | apply Hall, Hal'].
  - intros b c' sim Hrun. apply script_inv in Hrun as [Hal' Hd].
    split; [exact Hd | apply Hall, Hal'].
Qed.

(** Without [error_on_fail] a run that did not converge would be returned
    as if it were a result. *)
Lemma solve_ocp_silent (o : Ocp A) :
  success (nlp o) = false -> error_on_fail o = false ->
  solve_ocp o = Ok (nlp o).
Proof.
  intros Hs He. unfold solve_ocp. rewrite Hs, He. reflexivity.
Qed.

(** C7: the problem is given the solver [ipopt] with the options of the
    script, in which [error_on_fail] is set, the tolerance of ipopt is
    [1e-8] and its linear solver is [ma57].  Because of [error_on_fail], a
    solve that does not converge raises, and the script ends with that
    exception whatever else it is given; an exception raised when the
    parameters are read or when the results are written ends the script in
    the same way: nothing catches it. *)
Theorem solver_failure_raises :
  exists s1 s2 o,
    problem new_Ocp = Some ((s1, s2), o) /\
    solver o = Some ("ipopt"%string, options) /\
    get_item "error_on_fail" (options : value A) = Some (VBool true) /\
    (exists ipopt : value A,
       get_item "ipopt" options = Some ipopt /\
       get_item "tol" ipopt = Some (VNum (of_Q (1 # 100000000))) /\
       get_item "linear_solver" ipopt = Some (VStr "ma57")) /\
    error_on_fail o = true /\
    (success (nlp o) = false ->
       solve_ocp o = Raise SolverFailed /\
       forall b, script b = Raise SolverFailed) /\
    (forall b e c,
       success (nlp o) = true ->
       resample s1 s2 (nlp o) = Some c ->
       dump "truck_trailer_x_u.yaml" (result_yaml c) = Raise e ->
       script b = Raise e) /\
    (forall (load : string -> result (params A)) e,
       load "truck_trailer_para.yaml"%string = Raise e ->
       main load vert_vehic simulator_delta_init simulator nlp
         error_on_fail_default dump = Raise e).
Proof.
  do 3 eexists. split; [apply problem_run|].
  split; [reflexivity|]. split; [reflexivity|].
  split; [eexists; repeat split; reflexivity|].
  split; [reflexivity|].
  split; [|split].
  - intros Hfail.
    assert (Hsolve : solve_ocp
              {| fresh := 20;
                 stages := [stage_1 para vert_vehic; stage_2 para vert_vehic];
                 ocp_constraints :=
                   initial_constraints
                   ++ stitching (stage_1 para vert_vehic) (stage_2 para vert_vehic)
                   ++ final_constraints;
                 solver := Some ("ipopt"%string, options) |}
              = Raise SolverFailed).
    { unfold solve_ocp. rewrite Hfail. reflexivity. }
    split; [exact Hsolve|].
    intros b. unfold script. rewrite problem_run.
    cbn [of_option result_bind]. fold solve_ocp. rewrite Hsolve. reflexivity.
  - intros b e c Hok Hc Hd.
    unfold script. rewrite problem_run.
    cbn [of_option result_bind].
    unfold solve_ocp. rewrite Hok. cbn [result_bind].
    rewrite Hc. cbn [of_option result_bind]. rewrite Hd. reflexivity.
  - intros load e Hload. unfold main. rewrite Hload. reflexivity.
Qed.

End ScriptFacts.

(* ===================================================================== *)
(** ** Properties of the control grid *)
(* ===================================================================== *)

Module GridBinary64.
Import Binary64.

(** [numpy.arange(0.1, 0.4, 0.1)] has four entries and its last one is
    [0.4]: the quotient [(0.4 - 0.1) / 0.1] rounds to
    [3.0000000000000004], whose ceiling is 4. *)
Example t_ctrl_tenths :
  t_ctrl (of_Q (1 # 10)) (of_Q (4 # 10))
  = Some [0; 0x1.999999999999ap-4; 0x1.999999999999ap-3;
          0x1.3333333333334p-2; 0x1.999999999999ap-2]%float.
Proof. vm_compute. reflexivity. Qed.

(** The property of C5 is not one of [t_ctrl] on binary64: for
    [t1_sol = 0.1] and [t2_sol = 0.4] the last entry of [t_ctrl] is [0.4]
    itself, so it is not strictly below [t2_sol]. *)
Lemma t_ctrl_binary64_reaches_stop :
  ~ (forall t1_sol t2_sol : float,
       num_lt (of_Q 0) t1_sol -> num_lt t1_sol t2_sol ->
       forall ts, t_ctrl t1_sol t2_sol = Some ts -> spans (of_Q 0) t2_sol ts).
Proof.
  intros Hc.
  destruct (Hc (of_Q (1 # 10)) (of_Q (4 # 10))) with
    (ts := [0; 0x1.999999999999ap-4; 0x1.999999999999ap-3;
            0x1.3333333333334p-2; 0x1.999999999999ap-2]%float)
    as (_ & Hlt & _); try (vm_compute; reflexivity).
  specialize (Hlt 4%nat _ eq_refl).
  vm_compute in Hlt. discriminate Hlt.
Qed.

(** At a junction time that is a rounded multiple of the period, such as
    [96 * 0.1 = 9.600000000000001], the first grid already ends with the
    junction time and the second one starts with it again. *)
Example t_ctrl_repeats_junction :
  let t1_sol := (of_Z 96 * Ts)%num in
  exists ts1 ts2,
    t1_ctrl t1_sol = Some ts1 /\ t2_ctrl t1_sol (of_Z 15) = Some ts2 /\
    length ts1 = 97%nat /\ ts1 !! 96%nat = Some t1_sol /\
    ts2 !! 0%nat = Some t1_sol.
Proof.
  intros t1_sol.
  destruct (t1_ctrl t1_sol) as [ts1|] eqn:E1; [|vm_compute in E1; discriminate E1].
  destruct (t2_ctrl t1_sol (of_Z 15)) as [ts2|] eqn:E2;
    [|vm_compute in E2; discriminate E2].
  exists ts1, ts2. repeat split.
  - vm_compute in E1. injection E1 as <-. reflexivity.
  - vm_compute in E1. injection E1 as <-. vm_compute. reflexivity.
  - vm_compute in E2. injection E2 as <-. vm_compute. reflexivity.
Qed.

(** C5 at the input [t1_sol = 1.0], [t2_sol = 1.3], which meets
    [0 < t1_sol < t2_sol]: the quotient [(1.3 - 1.0) / 0.1] rounds to
    [3.0000000000000004], so the second grid gets a fourth sample;
    [t_ctrl] has 14 entries and its last one, [1.3000000000000003], is
    above [t2_sol]: the array does not stay in [[0, t2_sol)]. *)
Lemma t_ctrl_binary64_exceeds_stop :
  num_lt (of_Q 0) (of_Q 1 : float) /\
  num_lt (of_Q 1 : float) (of_Q (13 # 10)) /\
  exists ts last,
    t_ctrl (of_Q 1 : float) (of_Q (13 # 10)) = Some ts /\
    length ts = 14%nat /\
    ts !! 13%nat = Some last /\
    num_lt (of_Q (13 # 10)) last /\
    ~ spans (of_Q 0) (of_Q (13 # 10)) ts.
Proof.
  split; [vm_compute; reflexivity|]. split; [vm_compute; reflexivity|].
  destruct (t_ctrl (of_Q 1 : float) (of_Q (13 # 10))) as [ts|] eqn:E;
    [|vm_compute in E; discriminate E].
  vm_compute in E. injection E as <-.
  eexists _, _. split; [reflexivity|]. split; [reflexivity|].
  split; [reflexivity|]. split; [vm_compute; reflexivity|].
  intros (_ & Hlt & _). specialize (Hlt 13%nat _ eq_refl).
  vm_compute in Hlt. discriminate Hlt.
Qed.

End GridBinary64.

Module GridExact.
Import Exact.
Local Open Scope Q_scope.

Lemma lt_iff (a b : Q) : num_lt a b <-> a < b.
Proof.
  unfold num_lt; cbn; unfold Qlt_bool.
  rewrite negb_true_iff, <- not_true_iff_false, Qle_bool_iff.
  split; [apply Qnot_le_lt | apply Qlt_not_le].
Qed.

(** Without rounding the three ways of filling an entry agree. *)
Lemma arange_item_eq (start step : Q) (i : nat) :
  arange_item start step i == start + inject_Z (Z.of_nat i) * step.
Proof.
  destruct i as [|[|i]]; cbn -[Z.of_nat inject_Z].
  - change (inject_Z (Z.of_nat 0)) with 0. ring.
  - change (inject_Z (Z.of_nat 1)) with 1. ring.
  - ring.
Qed.

Lemma below_quotient (a b c : Q) : 0 < c -> a < b / c -> a * c < b.
Proof.
  intros Hc Hlt.
  apply (Qmult_lt_compat_r _ _ c Hc) in Hlt.
  assert (E : b / c * c == b) by (field; intros E; rewrite E in Hc; inversion Hc).
  rewrite E in Hlt. exact Hlt.
Qed.

(** [arange] never raises on rationals; it is not empty when
    [start < stop], and every entry is below [stop]. *)
Lemma arange_exact (start stop step : Q) :
  0 < step ->
  exists n,
    arange start stop step = Some (map (arange_item start step) (seq 0 n)) /\
    (start < stop -> (0 < n)%nat) /\
    (forall i, (i < n)%nat -> start + inject_Z (Z.of_nat i) * step < stop).
Proof.
  intros Hstep. unfold arange; cbn [ceil Q_order].
  set (q := ((stop - start) / step)%num).
  exists (Z.to_nat (Qceiling q)). split; [reflexivity|]. split.
  - intros Hlt.
    assert (Hq : 0 < q).
    { unfold q; cbn [div sub Q_scalar].
      apply Qlt_shift_div_l; [exact Hstep|]. Lqa.lra. }
    assert (Hc : 0 < inject_Z (Qceiling q))
      by (eapply Qlt_le_trans; [exact Hq | apply Qle_ceiling]).
    rewrite <- (Zlt_Qlt 0) in Hc. lia.
  - intros i Hi.
    assert (Hz : (Z.of_nat i <= Qceiling q - 1)%Z) by lia.
    rewrite Zle_Qle in Hz.
    assert (Hq : inject_Z (Z.of_nat i) < q)
      by (eapply Qle_lt_trans; [exact Hz | apply Qceiling_lt]).
    unfold q in Hq; cbn [div sub Q_scalar] in Hq.
    apply below_quotient in Hq; [|exact Hstep]. Lqa.lra.
Qed.

Lemma Ts_pos : 0 < Ts.
Proof. reflexivity. Qed.

Lemma arange_lookup (start : Q) (n i : nat) (x : Q) :
  map (arange_item start Ts) (seq 0 n) !! i = Some x ->
  (i < n)%nat /\ x == start + inject_Z (Z.of_nat i) * Ts.
Proof.
  intros Hx. rewrite list_lookup_fmap in Hx.
  destruct (seq 0 n !! i) as [j|] eqn:Hj; [|discriminate].
  apply lookup_seq in Hj as [-> Hlt]. injection Hx as <-.
  split; [exact Hlt | apply arange_item_eq].
Qed.

Lemma grid_step (i : nat) :
  inject_Z (Z.of_nat i) * Ts < inject_Z (Z.of_nat (S i)) * Ts.
Proof.
  rewrite Nat2Z.inj_succ. unfold Z.succ. rewrite inject_Z_plus.
  pose proof Ts_pos. change (inject_Z 1) with 1. Lqa.lra.
Qed.

(** When the arithmetic is exact, [t_ctrl] exists for every
    [0 < t1_sol < t2_sol], starts at 0, stays strictly below [t2_sol] and
    strictly increases from each entry to the next: the two half-open
    grids do what they are written for, and what [t_ctrl] does otherwise
    on binary64 comes from the rounding of the length of [arange]
    alone. *)
Theorem t_ctrl_exact_spans (t1_sol t2_sol : Q) :
  0 < t1_sol -> t1_sol < t2_sol ->
  exists ts, t_ctrl t1_sol t2_sol = Some ts /\ spans (of_Q 0) t2_sol ts.
Proof.
  intros H1 H2. unfold t_ctrl, t1_ctrl, t2_ctrl.
  destruct (arange_exact (of_Q 0) t1_sol Ts Ts_pos) as (n1 & -> & Hn1 & Hb1).
  destruct (arange_exact t1_sol t2_sol Ts Ts_pos) as (n2 & -> & Hn2 & Hb2).
  specialize (Hn1 H1). specialize (Hn2 H2).
  eexists; split; [reflexivity|].
  assert (Hlen : forall start n,
             length (map (arange_item start Ts) (seq 0 n)) = n)
    by (intros; rewrite length_map, length_seq; reflexivity).
  repeat split.
  - rewrite lookup_app_l by (rewrite Hlen; exact Hn1).
    destruct n1; [lia|reflexivity].
  - intros i x Hx. apply lt_iff.
    apply lookup_app_Some in Hx as [Hx | [_ Hx]];
      apply arange_lookup in Hx as [Hi ->].
    + specialize (Hb1 _ Hi). change (of_Q 0) with 0 in *. Lqa.lra.
    + apply Hb2. exact Hi.
  - intros i x y Hx Hy. apply lt_iff.
    apply lookup_app_Some in Hx as [Hx | [Hle Hx]];
      apply lookup_app_Some in Hy as [Hy | [Hle' Hy]];
      rewrite ?Hlen in *.
    + apply arange_lookup in Hx as [_ ->]. apply arange_lookup in Hy as [_ ->].
      pose proof (grid_step i). Lqa.lra.
    + apply arange_lookup in Hx as [Hi ->]. apply arange_lookup in Hy as [_ ->].
      replace (S i - n1)%nat with 0%nat by lia.
      specialize (Hb1 _ Hi). change (of_Q 0) with 0 in *.
      change (inject_Z (Z.of_nat 0)) with 0. Lqa.lra.
    + apply lookup_lt_Some in Hy. rewrite Hlen in Hy. lia.
    + apply arange_lookup in Hx as [_ ->]. apply arange_lookup in Hy as [_ ->].
      replace (S i - n1)%nat with (S (i - n1)) by lia.
      pose proof (grid_step (i - n1)%nat). Lqa.lra.
Qed.

(** The grid for [t1_sol = 1/4] and [t2_sol = 1/2]. *)
Lemma t_ctrl_exact_spans_witness :
  0 < (1 # 4) /\ (1 # 4) < (1 # 2) /\
  exists ts, t_ctrl (1 # 4) (1 # 2) = Some ts /\ spans (of_Q 0) (1 # 2) ts.
Proof.
  split; [reflexivity|]. split; [reflexivity|].
  apply (t_ctrl_exact_spans (1 # 4) (1 # 2)); reflexivity.
Defined.

End GridExact.

(* ===================================================================== *)
(** ** The model at work on concrete data *)
(* ===================================================================== *)

Module OnReals.
Import Ideal Sample.
Local Open Scope R_scope.

Lemma plan0_aligned : aligned plan0.
Proof. repeat constructor. Qed.

(** The simulation of [plan0]: one pass, fed with the first planned
    controls. *)
Lemma simulate_applies_plan_witness :
  aligned plan0 /\
  exists s, simulate para0 unit tt hold plan0 = Some s /\ plan s = plan0 /\
            length (calls s) = 1%nat.
Proof.
  split; [exact plan0_aligned|].
  destruct (simulate_applies_plan para0 unit tt hold plan0 plan0_aligned)
    as (s & Hs & Hp & Hn & _).
  exists s. auto.
Defined.

Lemma simulate_first_sample_witness :
  aligned plan0 /\ (0 < Nsim plan0)%nat /\
  exists s, simulate para0 unit tt hold plan0 = Some s /\
            theta1_sim s !! 0%nat = Some (of_Q 0) /\
            theta0_sim s !! 0%nat = Some (of_Q 0).
Proof.
  split; [exact plan0_aligned|]. split; [cbn; lia|].
  destruct (simulate_first_sample para0 unit tt hold plan0 plan0_aligned)
    as (s & Hs & (Z1 & _ & _ & Z4 & _) & _); [cbn; lia|].
  exists s. auto.
Defined.

(** With rectangular footprints each stage has its five bounds and eight
    room constraints of three inequalities each, and the problem has five
    initial, seven stitching and four final constraints. *)
Example problem_on_rectangles :
  exists s1 s2 o,
    problem para0 rectangle new_Ocp = Some ((s1, s2), o) /\
    map (fun stg => map (@length _) (constraints stg)) (stages o)
    = [ [1; 1; 1; 1; 1; 3; 3; 3; 3; 3; 3; 3; 3];
        [1; 1; 1; 1; 1; 3; 3; 3; 3; 3; 3; 3; 3] ]%nat /\
    length (ocp_constraints o) = 16%nat.
Proof.
  do 3 eexists. split; [apply problem_run|]. split; reflexivity.
Qed.

(** On the reals the initial headings are not zero. *)
Example initial_heading_real : (pi / of_Z 2)%num <> (of_Q 0 : R).
Proof.
  cbn. unfold pi, R_pi, Q2R; cbn. pose proof PI_RGT_0. Lra.lra.
Qed.

(** The corridor [w1_1, w2_1, w1_2] of stage 1 is [-0.5 <= x <= 0.5] and
    [y <= 2.4]. *)
Example corridor_stage_1 (x y : R) :
  dot3 w1_1 (x, y, 1) = - x - 5 / 10 /\
  dot3 w2_1 (x, y, 1) = x - 5 / 10 /\
  dot3 w1_2 (x, y, 1) = y - 24 / 10.
Proof.
  unfold w1_1, w2_1, w1_2, n2_1, n1_1, n1_2, neg2, vertcat21, dot2, dot3,
    pcl, pcr, xcl, ycl, xcr, ycr, cg, sg, og.
  cbn. unfold pi, R_pi.
  assert (E : 0 * PI / 180 = 0) by Lra.lra. rewrite !E.
  rewrite sin_0, cos_0. unfold Q2R; cbn. Lra.lra.
Qed.

End OnReals.

Module OnBinary64.
Import Binary64.

(** On binary64 the initial headings are not zero either. *)
Example initial_heading_binary64 : (pi / of_Z 2)%num <> (of_Q 0 : float).
Proof.
  intros E.
  assert (H : PrimFloat.eqb (pi / of_Z 2)%num (of_Q 0) = true)
    by (rewrite E; vm_compute; reflexivity).
  vm_compute in H. discriminate H.
Qed.

End OnBinary64.

(* ===================================================================== *)
(** ** Further properties of the stage builder *)
(* ===================================================================== *)

Section MoreCreateStageFacts.
Context {A : Type} {SA : Scalar A} {TA : Trig A} {PA : HasPi A} {OA : Order A}.
Variable para : params A.
Variable vert_vehic :
  sx A -> sx A -> sx A -> A -> A -> A -> A -> list (sx A * sx A).

Local Abbreviation create_stage := (create_stage para vert_vehic).
Local Abbreviation created_stage := (created_stage para vert_vehic).
Local Abbreviation created_vars := (created_vars para).
Local Abbreviation problem := (problem para vert_vehic).
Local Abbreviation stage_1 := (stage_1 para vert_vehic).
Local Abbreviation stage_2 := (stage_2 para vert_vehic).

Lemma time_var_fresh (spec : time_spec A) (n : nat) :
  n <= snd (time_var spec n) <= S n.
Proof. destruct spec; cbn; lia. Qed.

(** X1: [create_stage] only adds: the handle it returns is the index of a
    new last stage, every stage that was in the store is still there as it
    was, the constraints of the problem and its solver are untouched, and
    between 8 and 10 symbols are drawn (8 signals, and one for each free
    time). *)
Theorem create_stage_frame (t0 T : time_spec A) (N M : nat)
    (w : list (vec3 A)) (o : Ocp A) :
  exists r o',
    create_stage t0 T N M w o = Some (r, o') /\
    r_stage r = length (stages o) /\
    length (stages o') = S (length (stages o)) /\
    (forall h s, stages o !! h = Some s -> stages o' !! h = Some s) /\
    ocp_constraints o' = ocp_constraints o /\
    solver o' = solver o /\
    fresh o + 8 <= fresh o' <= fresh o + 10.
Proof.
  rewrite create_stage_run. do 2 eexists. split; [reflexivity|].
  cbn [r_stage created_vars stages ocp_constraints solver fresh].
  split; [reflexivity|].
  split; [rewrite length_app; cbn; lia|].
  split; [intros h s Hs; apply lookup_app_l_Some; exact Hs|].
  split; [reflexivity|]. split; [reflexivity|].
  pose proof (time_var_fresh t0 (fresh o)).
  pose proof (time_var_fresh T (snd (time_var t0 (fresh o)))). lia.
Qed.

(** The symbols of a created stage, states first. *)
Lemma created_stage_symbols (t0v Tv : sx A) (n N M : nat) (w : list (vec3 A)) :
  states (created_stage t0v Tv n N M w) ++ controls (created_stage t0v Tv n N M w)
  = map Sym [n; 1 + n; 2 + n; 3 + n; 4 + n; 6 + n; 5 + n; 7 + n].
Proof. reflexivity. Qed.

Lemma Sym_inj (a b : nat) : @Sym A a = Sym b -> a = b.
Proof. intros [= E]. exact E. Qed.

(** X2: the six states and two inputs of a created stage are eight
    different symbols, all drawn from the counter of the problem during the
    call; so the two stages of the problem have no symbol in common. *)
Theorem create_stage_fresh_symbols :
  (forall (t0 T : time_spec A) (N M : nat) (w : list (vec3 A)) (o : Ocp A),
     exists r o' stg,
       create_stage t0 T N M w o = Some (r, o') /\
       stages o' !! r_stage r = Some stg /\
       List.NoDup (states stg ++ controls stg) /\
       forall x, In x (states stg ++ controls stg) ->
         exists n, x = Sym n /\ fresh o <= n < fresh o') /\
  (forall x,
     In x (states stage_1 ++ controls stage_1) ->
     In x (states stage_2 ++ controls stage_2) -> False).
Proof.
  split.
  - intros t0 T N M w o. rewrite create_stage_run. do 3 eexists.
    split; [reflexivity|]. cbn [r_stage created_vars stages fresh].
    split; [apply lookup_new_stage|].
    rewrite created_stage_symbols.
    pose proof (time_var_fresh t0 (fresh o)).
    pose proof (time_var_fresh T (snd (time_var t0 (fresh o)))).
    set (n := snd (time_var T (snd (time_var t0 (fresh o))))) in *.
    split.
    + apply Finite.Injective_map_NoDup; [intros a b; apply Sym_inj|].
      repeat (apply List.NoDup_cons; [cbn; lia|]). apply List.NoDup_nil.
    + intros x Hx. apply in_map_iff in Hx as (k & <- & Hk).
      exists k. split; [reflexivity|]. cbn in Hk. lia.
  - intros x H1 H2. unfold stage_1, stage_2 in *.
    rewrite created_stage_symbols in H1, H2.
    apply in_map_iff in H1 as (k1 & <- & Hk1).
    apply in_map_iff in H2 as (k2 & E & Hk2). apply Sym_inj in E.
    cbn in Hk1, Hk2. lia.
Qed.

(** X3: in a created stage every state has a derivative, so the dynamics
    are complete, while the two inputs have none; the only objective term
    is the duration of the stage, and the method is multiple shooting with
    the given [N] and [M] and the integrator [rk]. *)
Theorem create_stage_complete (start duration : time_spec A) (N M : nat)
    (w : list (vec3 A)) (o : Ocp A) :
  exists r o' stg,
    create_stage start duration N M w o = Some (r, o') /\
    stages o' !! r_stage r = Some stg /\
    length (states stg) = 6 /\ length (controls stg) = 2 /\
    (forall x, In x (states stg) -> exists d, stage_der stg x = Some d) /\
    (forall u, In u (controls stg) -> stage_der stg u = None) /\
    objective stg = [T stg] /\
    T stg = fst (time_var duration (snd (time_var start (fresh o)))) /\
    method stg = Some {| ms_N := N; ms_M := M; ms_intg := "rk" |}.
Proof.
  rewrite create_stage_run. do 3 eexists.
  split; [reflexivity|]. cbn [r_stage created_vars stages].
  split; [apply lookup_new_stage|].
  split; [reflexivity|]. split; [reflexivity|].
  split.
  { intros x Hx. cbn in Hx.
    repeat (destruct Hx as [<- | Hx]; [eexists; find_der|]). destruct Hx. }
  split.
  { intros u Hu. cbn in Hu.
    repeat (destruct Hu as [<- | Hu];
            [unfold created_stage; cbn [stage_der state_der];
             repeat (rewrite lookup_der_skip by lia); reflexivity|]).
    destruct Hu. }
  repeat split; reflexivity.
Qed.

End MoreCreateStageFacts.

(* ===================================================================== *)
(** ** Further properties of the stitching and of the problem *)
(* ===================================================================== *)

Section MoreProblemFacts.
Context {A : Type} {SA : Scalar A} {TA : Trig A} {PA : HasPi A} {OA : Order A}.
Variable para : params A.
Variable vert_vehic :
  sx A -> sx A -> sx A -> A -> A -> A -> A -> list (sx A * sx A).

Local Abbreviation problem := (problem para vert_vehic).
Local Abbreviation stage_1 := (stage_1 para vert_vehic).
Local Abbreviation stage_2 := (stage_2 para vert_vehic).

Lemma stitch_body_fails (h1 h2 : nat) (s2 : stage A) (i : nat) (o : Ocp A) :
  stages o !! h2 = Some s2 -> states s2 !! i = None ->
  bind (state_of h2 i) (fun x2 =>
  bind (at_t0 h2 x2) (fun lhs =>
  bind (state_of h1 i) (fun x1 =>
  bind (at_tf h1 x1) (fun rhs =>
  ocp_subject_to [Eq lhs rhs])))) o
  = None.
Proof.
  intros H2 Hx2. unfold bind at 1. unfold state_of, get_stage, bind, lift_option.
  rewrite H2. unfold ret. cbn beta iota. rewrite Hx2. reflexivity.
Qed.

Lemma stitch_loop_fails (h1 h2 : nat) (s1 s2 : stage A) (o : Ocp A) :
  stages o !! h1 = Some s1 -> stages o !! h2 = Some s2 ->
  forall n a cs,
    a <= length (states s2) -> length (states s2) < a + n ->
    a + n <= length (states s1) ->
    for_each (seq a n) (fun i =>
      bind (state_of h2 i) (fun x2 =>
      bind (at_t0 h2 x2) (fun lhs =>
      bind (state_of h1 i) (fun x1 =>
      bind (at_tf h1 x1) (fun rhs =>
      ocp_subject_to [Eq lhs rhs])))))
      {| fresh := fresh o; stages := stages o;
         ocp_constraints := cs; solver := solver o |}
    = None.
Proof.
  intros H1 H2 n. induction n as [|n IH]; intros a cs Ha Hlt Hle; [lia|].
  cbn [seq for_each]. unfold bind at 1.
  destruct (decide (a = length (states s2))) as [->|Hne].
  - rewrite (stitch_body_fails h1 h2 s2 _
               {| fresh := fresh o; stages := stages o;
                  ocp_constraints := cs; solver := solver o |} H2);
      [reflexivity | apply lookup_ge_None; lia].
  - destruct (lookup_lt_is_Some_2 (states s1) a ltac:(lia)) as [x1 Hx1].
    destruct (lookup_lt_is_Some_2 (states s2) a ltac:(lia)) as [x2 Hx2].
    rewrite (stitch_body_run h1 h2 s1 s2 a x1 x2
               {| fresh := fresh o; stages := stages o;
                  ocp_constraints := cs; solver := solver o |}
               H1 H2 Hx1 Hx2).
    cbn [fresh stages ocp_constraints solver].
    apply (IH (S a)); lia.
Qed.

(** X4: on any two stages of the store, [stitch_stages] succeeds when the
    second has at least as many states as the first, and then adds one
    constraint for the time and one for each state of the first stage,
    touching nothing else; when the second stage has fewer states it
    raises, on the first state that has no partner. *)
Theorem stitch_stages_defined (h1 h2 : nat) (s1 s2 : stage A) (o : Ocp A) :
  stages o !! h1 = Some s1 -> stages o !! h2 = Some s2 ->
  (length (states s1) <= length (states s2) ->
     exists o' added,
       stitch_stages h1 h2 o = Some (tt, o') /\
       stages o' = stages o /\ fresh o' = fresh o /\ solver o' = solver o /\
       ocp_constraints o' = ocp_constraints o ++ added /\
       length added = S (length (states s1))) /\
  (length (states s2) < length (states s1) -> stitch_stages h1 h2 o = None).
Proof.
  intros H1 H2. split.
  - intros Hlen. rewrite (stitch_stages_run h1 h2 s1 s2 o H1 H2 Hlen).
    do 2 eexists. split; [reflexivity|].
    cbn [stages fresh solver ocp_constraints].
    repeat split. unfold stitching. cbn [length].
    rewrite length_zip_with. lia.
  - intros Hlt. unfold stitch_stages.
    unfold bind at 1 2 3 4.
    unfold tf_of, t0_of, get_stage, ocp_subject_to, modify.
    unfold bind at 1 2. unfold ret.
    repeat (first [rewrite H1 | rewrite H2];
            cbn beta iota delta [fresh stages ocp_constraints solver]).
    apply (stitch_loop_fails h1 h2 s1 s2 o H1 H2); lia.
Qed.

Ltac among := cbn; repeat (first [left; reflexivity | right]).

(** X5: a solution that satisfies the constraints of the problem starts
    stage 1 at time 0 with the trailer at the origin and both headings at
    [pi/2], and ends stage 2 with the trailer at [(1.5, (ycl + ycr) / 2)]
    and both headings at 0. *)
Theorem problem_boundary_conditions :
  exists s1 s2 o stg1 stg2,
    problem new_Ocp = Some ((s1, s2), o) /\
    stages o !! r_stage s1 = Some stg1 /\
    stages o !! r_stage s2 = Some stg2 /\
    forall (g : valuation A) (t : A),
      all_hold g t (ocp_constraints o) ->
      let t_start := eval g t (t0 stg1) in
      let t_end := eval g t (tf stg2) in
      t_start = of_Z 0 /\
      eval g t_start (r_x1 s1) = of_Q 0 /\
      eval g t_start (r_y1 s1) = of_Q 0 /\
      eval g t_start (r_theta1 s1) = (pi / of_Z 2)%num /\
      eval g t_start (r_theta0 s1) = (pi / of_Z 2)%num /\
      eval g t_end (r_x1 s2) = of_Q (15 # 10) /\
      eval g t_end (r_y1 s2) = ((ycl + ycr) / of_Z 2)%num /\
      eval g t_end (r_theta1 s2) = of_Q 0 /\
      eval g t_end (r_theta0 s2) = of_Q 0.
Proof.
  do 3 eexists. exists stage_1, stage_2.
  split; [apply problem_run|]. split; [reflexivity|]. split; [reflexivity|].
  intros g t Hall. cbn [ocp_constraints] in Hall.
  assert (Heq : forall a b,
            In [Eq a b] (initial_constraints ++ stitching stage_1 stage_2
                         ++ final_constraints) ->
            eval g t a = eval g t b).
  { intros a b Hin. exact (Hall [Eq a b] (Eq a b) Hin (or_introl eq_refl)). }
  cbn zeta.
  split; [apply (Heq (Var 0) (Const (of_Z 0))); among|].
  split; [apply (Heq (At (Var 0) (Sym 3)) (Const x1_t0)); among|].
  split; [apply (Heq (At (Var 0) (Sym 4)) (Const y1_t0)); among|].
  split; [apply (Heq (At (Var 0) (Sym 2)) (Const theta1_t0)); among|].
  split; [apply (Heq (At (Var 0) (Sym 5)) (Const theta0_t0)); among|].
  split; [apply (Heq (At (Var 10 + Var 11)%num (Sym 13)) (Const x1_tf)); among|].
  split; [apply (Heq (At (Var 10 + Var 11)%num (Sym 14)) (Const y1_tf)); among|].
  split; [apply (Heq (At (Var 10 + Var 11)%num (Sym 12)) (Const theta1_tf)); among|].
  apply (Heq (At (Var 10 + Var 11)%num (Sym 15)) (Const theta0_tf)); among.
Qed.

(** X6: when adding to 0 changes nothing, the times [t1] and [t2] that
    the script reads from a solution of the problem are the final times of
    stage 1 and of stage 2, and [t1] is also the initial time of stage 2:
    the two grids of the resampling cover the two stages. *)
Theorem junction_times_are_final_times :
  (forall x : A, (of_Z 0 + x)%num = x) ->
  exists s1 s2 o stg1 stg2 t1 t2,
    problem new_Ocp = Some ((s1, s2), o) /\
    stages o !! r_stage s1 = Some stg1 /\
    stages o !! r_stage s2 = Some stg2 /\
    junction_times (r_stage s1) (r_stage s2) o = Some ((t1, t2), o) /\
    forall (g : valuation A) (t : A),
      all_hold g t (ocp_constraints o) ->
      eval g t t1 = eval g t (tf stg1) /\
      eval g t t1 = eval g t (t0 stg2) /\
      eval g t t2 = eval g t (tf stg2).
Proof.
  intros Hzero.
  do 3 eexists. exists stage_1, stage_2, (Var 1), (Var 1 + Var 11)%num.
  split; [apply problem_run|]. split; [reflexivity|]. split; [reflexivity|].
  split; [reflexivity|].
  intros g t Hall. cbn [ocp_constraints] in Hall.
  assert (Heq : forall a b,
            In [Eq a b] (initial_constraints ++ stitching stage_1 stage_2
                         ++ final_constraints) ->
            eval g t a = eval g t b).
  { intros a b Hin. exact (Hall [Eq a b] (Eq a b) Hin (or_introl eq_refl)). }
  assert (H0 : var g 0 = of_Z 0)
    by (apply (Heq (Var 0) (Const (of_Z 0))); among).
  assert (Hj : (var g 0 + var g 1)%num = var g 10)
    by (apply (Heq (tf stage_1) (t0 stage_2)); among).
  cbn. rewrite <- Hj, H0, !Hzero. auto.
Qed.

End MoreProblemFacts.

(* ===================================================================== *)
(** ** Further properties of the simulation loop *)
(* ===================================================================== *)

(** The passes of a loop that ran to its end all ran, each from a state
    with the property that the body keeps. *)
Lemma for_each_passes {S} (I : S -> Prop) (body : nat -> Build S unit)
    (n a : nat) (s s' : S) :
  I s ->
  (forall k s0 s1, I s0 -> body k s0 = Some (tt, s1) -> I s1) ->
  for_each (seq a n) body s = Some (tt, s') ->
  forall k, a <= k < a + n -> exists s0 s1, I s0 /\ body k s0 = Some (tt, s1).
Proof.
  revert a s. induction n as [|n IH]; intros a s Hs Hkeep Hrun k Hk; [lia|].
  cbn [seq for_each] in Hrun. unfold bind in Hrun.
  destruct (body a s) as [[[] s1]|] eqn:Hbody; [|discriminate].
  destruct (decide (k = a)) as [->|Hne].
  - exists s, s1. auto.
  - apply (IH (Datatypes.S a) s1); [eapply Hkeep; eassumption | exact Hkeep
                                   | exact Hrun | lia].
Qed.

Section MoreSimulationFacts.
Context {A : Type} {SA : Scalar A} {TA : Trig A} {PA : HasPi A} {OA : Order A}.
Variable para : params A.
Variable Simu : Type.
Variable simulator_delta_init : Simu.
Variable simulator : Simu -> vec4 A -> vec2 A -> A -> vec4 A.

Local Abbreviation sim_step := (sim_step para Simu simulator).
Local Abbreviation simulate := (simulate para Simu simulator_delta_init simulator).
Local Abbreviation sim_invariant :=
  (sim_invariant para Simu simulator_delta_init simulator).
Local Abbreviation chained := (chained Simu simulator_delta_init simulator).

(** A pass needs the entries [k] of the four arrays it reads from the
    plan, the entries [k] and [k + 1] of the time array, and room for the
    entries [k + 1] of the logging arrays. *)
Lemma sim_step_defined (simu : Simu) (k : nat) (s : sim_state A) :
  each_sim (fun a => k + 1 < length a) s ->
  k < length (theta0_ctrl (plan s)) -> k < length (theta1_ctrl (plan s)) ->
  k < length (delta0_ctrl (plan s)) -> k < length (v0_ctrl (plan s)) ->
  k + 1 < length (ctrl_t (plan s)) ->
  exists s', sim_step simu k s = Some (tt, s').
Proof.
  intros (L1 & L2 & L3 & L4 & L5 & L6) C1 C2 C3 C4 C5.
  destruct (lookup_lt_is_Some_2 (theta0_sim s) k ltac:(lia)) as [? E1].
  destruct (lookup_lt_is_Some_2 (theta1_sim s) k ltac:(lia)) as [? E2].
  destruct (lookup_lt_is_Some_2 (theta0_ctrl (plan s)) k C1) as [? E3].
  destruct (lookup_lt_is_Some_2 (theta1_ctrl (plan s)) k C2) as [? E4].
  destruct (lookup_lt_is_Some_2 (delta0_ctrl (plan s)) k C3) as [? E5].
  destruct (lookup_lt_is_Some_2 (v0_ctrl (plan s)) k C4) as [? E6].
  destruct (lookup_lt_is_Some_2 (ctrl_t (plan s)) (k + 1) C5) as [? E7].
  destruct (lookup_lt_is_Some_2 (ctrl_t (plan s)) k ltac:(lia)) as [? E8].
  unfold sim_step. rewrite E1, E2, E3, E4, E5, E6, E7, E8.
  destruct (simulator simu _ _ _) as [[[xn0 xn1] xn2] xn3].
  rewrite !set_item_in_range by assumption.
  eexists. reflexivity.
Qed.

(** X7: the simulation raises exactly when one of the four arrays it reads
    from the plan has fewer than [Nsim - 1] entries; with at most one time
    point it makes no pass at all and returns the logging arrays as they
    were created, whatever the plan. *)
Theorem simulate_defined (c : ctrl A) :
  ((exists s, simulate c = Some s) <->
   Forall (fun a => Nsim c - 1 <= length a)
     [theta0_ctrl c; theta1_ctrl c; delta0_ctrl c; v0_ctrl c]) /\
  (Nsim c <= 1 -> simulate c = Some (sim_init c)).
Proof.
  split.
  - rewrite !Forall_cons, Forall_nil. unfold simulate. split.
    + intros [s Hs].
      destruct (for_each _ _ _) as [[[] s']|] eqn:Hrun; [|discriminate].
      destruct (Nat.le_gt_cases (Nsim c) 1) as [Hle|Hgt]; [repeat split; lia|].
      assert (Hkeep : forall k s0 s1, plan s0 = c ->
                sim_step simulator_delta_init k s0 = Some (tt, s1) -> plan s1 = c).
      { intros k s0 s1 Hp Hstep.
        apply sim_step_effect in Hstep
          as (? & ? & ? & ? & ? & ? & ? & ? & _ & _ & _ & _ & _ & _ & _ & _ & Hs1).
        cbn zeta in Hs1. destruct Hs1 as (_ & _ & _ & _ & _ & _ & ->).
        exact Hp. }
      destruct (for_each_passes (fun s0 => plan s0 = c)
                  (sim_step simulator_delta_init) (Nsim c - 1) 0 (sim_init c) s'
                  eq_refl Hkeep Hrun (Nsim c - 2) ltac:(lia))
        as (s0 & s1 & Hp & Hstep).
      apply sim_step_effect in Hstep
        as (? & ? & ? & ? & ? & ? & ? & ? & _ & _ & E3 & E4 & E5 & E6 & _).
      rewrite Hp in *.
      apply lookup_lt_Some in E3, E4, E5, E6. repeat split; lia.
    + intros (C1 & C2 & C3 & C4 & _).
      destruct (for_each_invariant
                  (fun _ s0 => plan s0 = c /\ each_sim (fun a => length a = Nsim c) s0)
                  (sim_step simulator_delta_init) (Nsim c - 1) 0 (sim_init c))
        as (s & Hrun & _).
      { split; [reflexivity|]. unfold each_sim, sim_init, zeros; cbn.
        rewrite !length_replicate. tauto. }
      { intros k s0 Hk (Hp & G1 & G2 & G3 & G4 & G5 & G6).
        destruct (sim_step_defined simulator_delta_init k s0) as [s1 Hstep];
          try (rewrite Hp; unfold Nsim in *; lia).
        { unfold each_sim. rewrite G1, G2, G3, G4, G5, G6. repeat split; lia. }
        exists s1. split; [exact Hstep|].
        apply sim_step_effect in Hstep
          as (? & ? & ? & ? & ? & ? & ? & ? & _ & _ & _ & _ & _ & _ & _ & _ & Hs1).
        cbn zeta in Hs1. destruct Hs1 as (_ & _ & _ & _ & _ & _ & ->).
        unfold each_sim; cbn. rewrite !length_insert. tauto. }
      exists s. rewrite Hrun. reflexivity.
  - intros Hle. unfold simulate.
    replace (Nsim c - 1) with 0 by lia. reflexivity.
Qed.


Lemma chained_step (c : ctrl A) (m : nat) (s : sim_state A) :
  aligned c -> m + 1 < Nsim c ->
  sim_invariant c m s /\ chained c s ->
  exists s', sim_step simulator_delta_init m s = Some (tt, s') /\
             sim_invariant c (S m) s' /\ chained c s'.
Proof.
  intros Hal Hm (Hinv & Hdata & Hnext & Hlast).
  destruct (sim_invariant_step para Simu simulator_delta_init simulator c m s
              Hal Hm Hinv) as (s' & Hrun & Hinv').
  exists s'. split; [exact Hrun|]. split; [exact Hinv'|].
  destruct Hinv as (Hplan & _ & _ & Hcalls & Hlog & _ & _).
  apply sim_step_effect in Hrun
    as (th0s & th1s & th0c & th1c & d0 & v0 & tk1 & tk
        & E1 & E2 & E3 & E4 & E5 & E6 & E7 & E8 & Hs').
  cbn zeta in Hs'. destruct Hs' as (_ & _ & _ & _ & _ & _ & ->).
  rewrite Hplan in *.
  unfold chained. cbn [calls x_current].
  split; [|split].
  - intros k call Hk. apply lookup_app_Some in Hk as [Hk | [Hge Hk]].
    + exact (Hdata k call Hk).
    + apply lookup_singleton_Some in Hk as [Hk ->].
      assert (k = m) as -> by lia.
      exists tk, tk1, th0c, th1c. cbn. auto 10.
  - intros k call call' Hk Hk'.
    apply lookup_app_Some in Hk' as [Hk' | [Hge Hk']].
    + rewrite lookup_app_l in Hk by (apply lookup_lt_Some in Hk'; lia).
      exact (Hnext k call call' Hk Hk').
    + apply lookup_singleton_Some in Hk' as [Hk' ->].
      assert (S k = m) as <- by lia.
      rewrite lookup_app_l in Hk by lia.
      cbn [call_x beta01_sim].
      destruct (Hlog k call Hk) as (_ & _ & _ & Hl).
      unfold logged in Hl. clear Hinv'.
      rewrite (Hlast k call Hcalls Hk). revert Hl.
      destruct (simulator simulator_delta_init (call_x call) (call_u call)
                  (call_dt call)) as [[[xn0 xn1] xn2] xn3].
      intros (Z1 & _ & _ & Z4 & _).
      replace (k + 1) with (S k) in * by lia.
      rewrite Z4 in E1. rewrite Z1 in E2.
      injection E1 as <-. injection E2 as <-. auto.
  - intros k call Hlen Hk. rewrite length_app in Hlen. cbn in Hlen.
    rewrite lookup_app_r in Hk by lia.
    apply lookup_singleton_Some in Hk as [_ ->]. reflexivity.
Qed.

(** X8: on a plan whose arrays have the length of the time array the
    simulation is open loop and chained: the time step of pass [k] is
    [t_ctrl[k+1] - t_ctrl[k]], its planned articulation angle is
    [theta0_ctrl[k] - theta1_ctrl[k]] and its error the difference with
    the simulated one; each pass after the first starts the integrator from
    the state the pass before got back, and takes its simulated
    articulation angle from that state; and the state left in
    [x_current] is the one the last pass got back. *)
Theorem simulate_chains_integrator (c : ctrl A) :
  aligned c ->
  exists s,
    simulate c = Some s /\ length (calls s) = Nsim c - 1 /\ chained c s.
Proof.
  intros Hal. unfold simulate.
  destruct (for_each_invariant
              (fun m s0 => sim_invariant c m s0 /\ chained c s0)
              (sim_step simulator_delta_init) (Nsim c - 1) 0 (sim_init c))
    as (s & Hrun & Hinv & Hch).
  { split; [apply sim_init_invariant|].
    unfold chained, sim_init; cbn [calls].
    repeat split; intros; rewrite lookup_nil in *; discriminate. }
  { intros k s0 Hk H0. apply chained_step; [exact Hal | lia | exact H0]. }
  exists s. rewrite Hrun. split; [reflexivity|]. split; [|exact Hch].
  destruct Hinv as (_ & _ & _ & Hcalls & _). exact Hcalls.
Qed.

End MoreSimulationFacts.

(* ===================================================================== *)
(** ** Further properties of the script as a whole *)
(* ===================================================================== *)

(** An entry of two sampled pieces put end to end is the value of the
    first piece at a time of the first grid, or of the second piece at a
    time of the second grid. *)
Lemma lookup_pieces {B C} (f1 f2 : B -> C) (l1 l2 : list B) (i : nat) (y : C) :
  (map f1 l1 ++ map f2 l2) !! i = Some y ->
  (exists t, i < length l1 /\ l1 !! i = Some t /\ y = f1 t) \/
  (exists t, length l1 <= i /\ l2 !! (i - length l1) = Some t /\ y = f2 t).
Proof.
  intros H. apply lookup_app_Some in H as [H | [Hge H]].
  - left. change (map f1 l1) with (f1 <$> l1) in H.
    apply list_lookup_fmap_Some in H as (t & -> & Ht).
    exists t. split; [apply lookup_lt_Some in Ht; exact Ht | auto].
  - right. rewrite length_map in *. change (map f2 l2) with (f2 <$> l2) in H.
    apply list_lookup_fmap_Some in H as (t & -> & Ht).
    exists t. auto.
Qed.

Section MoreScriptFacts.
Context {A : Type} {SA : Scalar A} {TA : Trig A} {PA : HasPi A} {OA : Order A}.
Variable para : params A.
Variable vert_vehic :
  sx A -> sx A -> sx A -> A -> A -> A -> A -> list (sx A * sx A).
Variable Simu : Type.
Variable simulator_delta_init : Simu.
Variable simulator : Simu -> vec4 A -> vec2 A -> A -> vec4 A.
Variable nlp : Ocp A -> solution A.
Variable error_on_fail_default : bool.
Variable dump : string -> value A -> result unit.

Local Abbreviation problem := (problem para vert_vehic).
Local Abbreviation simulate := (simulate para Simu simulator_delta_init simulator).
Local Abbreviation truck_xy := (truck_xy para).
Local Abbreviation solve_ocp := (solve_ocp nlp error_on_fail_default).
Local Abbreviation script :=
  (script para vert_vehic Simu simulator_delta_init simulator nlp
     error_on_fail_default dump).

(** X9: switching the simulator on changes neither whether the script
    fails nor what it writes: the script with the simulation raises what
    the script without it raises, and when the script without it returns a
    plan, the script with it returns the same plan and a simulation of it
    that did not run out of any array and called the integrator once for
    each time point but the last. *)
Theorem script_simulation_runs :
  match script false with
  | Ok (c, sim0) =>
      sim0 = None /\
      exists sim, simulate c = Some sim /\
                  length (calls sim) = length (ctrl_t c) - 1 /\
                  script true = Ok (c, Some sim)
  | Raise e => script true = Raise e
  end.
Proof.
  unfold script.
  destruct (problem new_Ocp) as [[[s1 s2] o]|]; cbn; [|reflexivity].
  destruct (solve_ocp o) as [sol|]; cbn; [|reflexivity].
  destruct (resample s1 s2 sol) as [c|] eqn:Hc; cbn; [|reflexivity].
  destruct (dump _ (result_yaml c)) as [[]|]; cbn; [|reflexivity].
  apply resample_inv in Hc as [_ Hal].
  destruct (simulate_invariant para Simu simulator_delta_init simulator c Hal)
    as (sim & Hrun & _ & _ & _ & Hcalls & _).
  split; [reflexivity|]. exists sim. rewrite Hrun. cbn. auto.
Qed.

(** X10: in the plan resampled from any solution of the problem, and so
    in the document written from it, the truck position is no
    independent signal: at every index, [x0_ctrl] and [y0_ctrl] are
    [truck_xy] of the entries of [theta1_ctrl], [x1_ctrl], [y1_ctrl] and
    [theta0_ctrl] at that index, on both sides of the junction. *)
Theorem resampled_truck_position :
  exists s1 s2 o,
    problem new_Ocp = Some ((s1, s2), o) /\
    forall sol c,
      resample s1 s2 sol = Some c ->
      forall i theta1 x1 y1 theta0,
        theta1_ctrl c !! i = Some theta1 -> x1_ctrl c !! i = Some x1 ->
        y1_ctrl c !! i = Some y1 -> theta0_ctrl c !! i = Some theta0 ->
        x0_ctrl c !! i = Some (fst (truck_xy theta1 x1 y1 theta0)) /\
        y0_ctrl c !! i = Some (snd (truck_xy theta1 x1 y1 theta0)).
Proof.
  do 3 eexists. split; [apply problem_run|].
  intros sol c. unfold resample.
  destruct (t1_ctrl (t1_sol sol)) as [t1c|]; [|discriminate].
  destruct (t2_ctrl (t1_sol sol) (t2_sol sol)) as [t2c|]; [|discriminate].
  unfold sample_ctrl, sampler1, sampler2, sampler. cbn [map].
  intros [= <-] i theta1 x1 y1 theta0.
  cbn [theta1_ctrl x1_ctrl y1_ctrl theta0_ctrl x0_ctrl y0_ctrl].
  intros H1 H2 H3 H4.
  apply lookup_pieces in H1 as [(t & L1 & T1 & ->) | (t & L1 & T1 & ->)];
  apply lookup_pieces in H2 as [(t2 & L2 & T2 & ->) | (t2 & L2 & T2 & ->)];
  apply lookup_pieces in H3 as [(t3 & L3 & T3 & ->) | (t3 & L3 & T3 & ->)];
  apply lookup_pieces in H4 as [(t4 & L4 & T4 & ->) | (t4 & L4 & T4 & ->)];
  try lia;
  rewrite T1 in T2, T3, T4; injection T2 as <-; injection T3 as <-;
  injection T4 as <-.
  - rewrite !lookup_app_l by (rewrite length_map; exact L1).
    change (map ?f t1c) with (f <$> t1c).
    rewrite !list_lookup_fmap, T1. split; reflexivity.
  - rewrite !lookup_app_r by (rewrite length_map; exact L1).
    rewrite !length_map.
    change (map ?f t2c) with (f <$> t2c).
    rewrite !list_lookup_fmap, T1. split; reflexivity.
Qed.

End MoreScriptFacts.

Section MainFacts.
Context {A : Type} {SA : Scalar A} {TA : Trig A} {PA : HasPi A} {OA : Order A}.
Variable vert_vehic :
  sx A -> sx A -> sx A -> A -> A -> A -> A -> list (sx A * sx A).
Variable Simu : Type.
Variable simulator_delta_init : Simu.
Variable simulator : Simu -> vec4 A -> vec2 A -> A -> vec4 A.
Variable nlp : Ocp A -> solution A.
Variable error_on_fail_default : bool.
Variable dump : string -> value A -> result unit.

(** X11: as the script is written, with [use_simulator = False], the
    integrator has no part in its outcome: [main] gives the same result, or
    raises the same exception, with any two integrators, and what it
    returns has no simulation. *)
Theorem main_never_simulates (load : string -> result (params A))
    (Simu' : Type) (simulator_delta_init' : Simu')
    (simulator' : Simu' -> vec4 A -> vec2 A -> A -> vec4 A) :
  main load vert_vehic simulator_delta_init simulator nlp
    error_on_fail_default dump
  = main load vert_vehic simulator_delta_init' simulator' nlp
      error_on_fail_default dump /\
  forall c sim,
    main load vert_vehic simulator_delta_init simulator nlp
      error_on_fail_default dump = Ok (c, sim) ->
    sim = None.
Proof.
  unfold main, script, use_simulator.
  destruct (load _) as [p|]; cbn; [|split; [reflexivity | discriminate]].
  destruct (problem p vert_vehic new_Ocp) as [[[s1 s2] o]|]; cbn;
    [|split; [reflexivity | discriminate]].
  destruct (solve_ocp nlp error_on_fail_default o) as [sol|]; cbn;
    [|split; [reflexivity | discriminate]].
  destruct (resample s1 s2 sol) as [c|]; cbn;
    [|split; [reflexivity | discriminate]].
  destruct (dump _ (result_yaml c)) as [[]|]; cbn;
    [|split; [reflexivity | discriminate]].
  split; [reflexivity|]. intros c' sim [= _ <-]. reflexivity.
Qed.

End MainFacts.

(* ===================================================================== *)
(** ** The corridors on the real numbers *)
(* ===================================================================== *)

Module CorridorOnReals.
Import Ideal.
Local Open Scope R_scope.

Lemma num_le_iff (a b : R) : num_le a b <-> a <= b.
Proof. unfold num_le; cbn. destruct (Rle_dec a b); intuition discriminate. Qed.

(** The four half-planes at a point. *)
Lemma half_planes (x y : R) :
  dot3 w1_1 (x, y, of_Z 1) = - x - 5 / 10 /\
  dot3 w2_1 (x, y, of_Z 1) = x - 5 / 10 /\
  dot3 w1_2 (x, y, of_Z 1) = y - 24 / 10 /\
  dot3 w2_2 (x, y, of_Z 1) = 2 - y.
Proof.
  unfold w1_1, w2_1, w1_2, w2_2, n2_1, n1_1, n1_2, n2_2, neg2, vertcat21,
    dot2, dot3, pcl, pcr, xcl, ycl, xcr, ycr, cg, sg, og.
  cbn. unfold pi, R_pi.
  assert (E : 0 * PI / 180 = 0) by Lra.lra. rewrite !E.
  rewrite sin_0, cos_0. unfold Q2R; cbn. Lra.lra.
Qed.

(** X14: on the real numbers the room constraint of a vertex holds for
    the matrix of stage 1 exactly when the vertex is in the vertical arm
    [-0.5 <= x <= 0.5, y <= 2.4] of the corner, and for the matrix of
    stage 2 exactly when it is in the horizontal arm
    [2 <= y <= 2.4, -0.5 <= x].  The point where the trailer starts is in
    the first arm only and the point where it has to arrive in the second
    arm only. *)
Theorem corridors_are_arms (p : sx R * sx R) (g : valuation R) (t : R) :
  let x := eval g t (fst p) in
  let y := eval g t (snd p) in
  ((forall e, In e (room [w1_1; w2_1; w1_2] p) -> holds g t e) <->
   - (5 / 10) <= x <= 5 / 10 /\ y <= 24 / 10) /\
  ((forall e, In e (room [w1_2; w2_2; w1_1] p) -> holds g t e) <->
   2 <= y <= 24 / 10 /\ - (5 / 10) <= x) /\
  (fst p = Const x1_t0 -> snd p = Const y1_t0 ->
   (forall e, In e (room [w1_1; w2_1; w1_2] p) -> holds g t e) /\
   ~ (forall e, In e (room [w1_2; w2_2; w1_1] p) -> holds g t e)) /\
  (fst p = Const x1_tf -> snd p = Const y1_tf ->
   (forall e, In e (room [w1_2; w2_2; w1_1] p) -> holds g t e) /\
   ~ (forall e, In e (room [w1_1; w2_1; w1_2] p) -> holds g t e)).
Proof.
  intros x y.
  destruct (half_planes x y) as (E1 & E2 & E3 & E4).
  assert (A1 : (forall e, In e (room [w1_1; w2_1; w1_2] p) -> holds g t e) <->
               - (5 / 10) <= x <= 5 / 10 /\ y <= 24 / 10).
  { rewrite room_holds. fold x y. split.
    - intros H.
      pose proof (H w1_1 ltac:(cbn; auto)) as H1.
      pose proof (H w2_1 ltac:(cbn; auto)) as H2.
      pose proof (H w1_2 ltac:(cbn; auto)) as H3.
      rewrite num_le_iff in H1, H2, H3. rewrite E1 in H1. rewrite E2 in H2.
      rewrite E3 in H3. cbn in H1, H2, H3. Lra.lra.
    - intros H col [<- | [<- | [<- | []]]]; rewrite num_le_iff;
        rewrite ?E1, ?E2, ?E3; cbn; Lra.lra. }
  assert (A2 : (forall e, In e (room [w1_2; w2_2; w1_1] p) -> holds g t e) <->
               2 <= y <= 24 / 10 /\ - (5 / 10) <= x).
  { rewrite room_holds. fold x y. split.
    - intros H.
      pose proof (H w1_2 ltac:(cbn; auto)) as H1.
      pose proof (H w2_2 ltac:(cbn; auto)) as H2.
      pose proof (H w1_1 ltac:(cbn; auto)) as H3.
      rewrite num_le_iff in H1, H2, H3. rewrite E3 in H1. rewrite E4 in H2.
      rewrite E1 in H3. cbn in H1, H2, H3. Lra.lra.
    - intros H col [<- | [<- | [<- | []]]]; rewrite num_le_iff;
        rewrite ?E1, ?E3, ?E4; cbn; Lra.lra. }
  split; [exact A1|]. split; [exact A2|]. rewrite A1, A2. subst x y. split.
  - intros -> ->. cbn. unfold x1_t0, y1_t0, Q2R; cbn. Lra.lra.
  - intros -> ->. cbn. unfold x1_tf, y1_tf, ycl, ycr, Q2R; cbn. Lra.lra.
Qed.

End CorridorOnReals.

(* ===================================================================== *)
(** ** The kinematic model on the real numbers *)
(* ===================================================================== *)

Module KinematicsOnReals.
Import Ideal Sample Motion.
Local Open Scope R_scope.

Lemma derivable_pt_lim_value (f : R -> R) (x l l' : R) :
  l' = l -> derivable_pt_lim f x l -> derivable_pt_lim f x l'.
Proof. intros ->. exact (fun H => H). Qed.

Lemma derivable_pt_lim_ext (f h : R -> R) (x l : R) :
  (forall y, f y = h y) -> derivable_pt_lim f x l -> derivable_pt_lim h x l.
Proof.
  intros E H eps Heps. destruct (H eps Heps) as [d Hd].
  exists d. intros k Hk Hlt. rewrite <- !E. exact (Hd k Hk Hlt).
Qed.

(** The derivative of a point carried at the distances [L] and [M] along
    two headings. *)
Lemma derivable_pt_lim_carried (trig dtrig : R -> R) (a b c : R -> R)
    (L M t da db dc : R) :
  (forall x, derivable_pt_lim trig x (dtrig x)) ->
  derivable_pt_lim a t da -> derivable_pt_lim b t db -> derivable_pt_lim c t dc ->
  derivable_pt_lim (fun x => a x + L * trig (b x) + M * trig (c x)) t
    (da + L * (dtrig (b t) * db) + M * (dtrig (c t) * dc)).
Proof.
  intros Htrig Ha Hb Hc.
  apply (derivable_pt_lim_ext
           (a + mult_real_fct L (comp trig b) + mult_real_fct M (comp trig c))%F);
    [reflexivity|].
  repeat apply derivable_pt_lim_plus; try assumption;
    apply derivable_pt_lim_scal; apply derivable_pt_lim_comp;
    try assumption; apply Htrig.
Qed.

(** X15: the model of [create_stage] is a rolling truck.  Along any
    signals that follow the dynamics of the stage, and for a trailer of
    length [L1 <> 0], the truck position [(x0, y0)] that the function
    returns moves with the speed [v0] in the direction of the truck heading
    [theta0]: its derivative is [(v0 * cos theta0, v0 * sin theta0)]. *)
Theorem truck_rolls_along_heading (para : params R)
    (vert_vehic : sx R -> sx R -> sx R -> R -> R -> R -> R -> list (sx R * sx R))
    (t0 T : time_spec R) (N M : nat) (w : list (vec3 R)) (o : Ocp R) :
  L1 para <> 0 ->
  exists r o' stg,
    create_stage para vert_vehic t0 T N M w o = Some (r, o') /\
    stages o' !! r_stage r = Some stg /\
    forall (g : valuation R) (t : R),
      follows g stg t ->
      derivable_pt_lim (fun x => eval g x (r_x0 r)) t
        (eval g t (r_v0 r) * Rtrigo_def.cos (eval g t (r_theta0 r))) /\
      derivable_pt_lim (fun x => eval g x (r_y0 r)) t
        (eval g t (r_v0 r) * Rtrigo_def.sin (eval g t (r_theta0 r))).
Proof.
  intros HL1. rewrite create_stage_run. do 3 eexists.
  split; [reflexivity|]. cbn [r_stage created_vars stages].
  split; [apply lookup_new_stage|].
  intros g t Hf.
  set (n := snd (time_var T (snd (time_var t0 (fresh o))))) in *.
  pose proof (Hf _ _ (or_introl eq_refl)) as H0.
  pose proof (Hf _ _ (or_intror (or_introl eq_refl))) as Hy.
  pose proof (Hf _ _ (or_intror (or_intror (or_introl eq_refl)))) as Hx.
  pose proof (Hf _ _ (or_intror (or_intror (or_intror (or_introl eq_refl))))) as H1.
  clear Hf. cbn in H0, Hy, Hx, H1. cbn.
  set (th1 := sig g n t) in *. set (th0 := sig g (S (S (S n))) t) in *.
  set (v0 := sig g (S (S (S (S (S (S n)))))) t) in *.
  set (w0 := v0 / L0 para * Rtrigo1.tan (sig g (S (S (S (S n)))) t)) in *.
  pose proof (sin2_cos2 th1) as Hsc. unfold Rsqr in Hsc.
  rewrite sin_minus, cos_minus in *.
  split.
  - eapply derivable_pt_lim_value;
      [|exact (derivable_pt_lim_carried Rtrigo_def.cos (fun x => - Rtrigo_def.sin x)
                 _ _ _ (L1 para) (M0 para) t _ _ _ derivable_pt_lim_cos Hx H1 H0)].
    fold th1 th0. cbv beta. clearbody w0 v0 th0 th1.
    transitivity
      (v0 * Rtrigo_def.cos th0
         * (Rtrigo_def.sin th1 * Rtrigo_def.sin th1
            + Rtrigo_def.cos th1 * Rtrigo_def.cos th1)
       + M0 para * w0 * Rtrigo_def.sin th0
         * (Rtrigo_def.sin th1 * Rtrigo_def.sin th1
            + Rtrigo_def.cos th1 * Rtrigo_def.cos th1 - 1));
      [rewrite Hsc; ring | field; exact HL1].
  - eapply derivable_pt_lim_value;
      [|exact (derivable_pt_lim_carried Rtrigo_def.sin Rtrigo_def.cos
                 _ _ _ (L1 para) (M0 para) t _ _ _ derivable_pt_lim_sin Hy H1 H0)].
    fold th1 th0. cbv beta. clearbody w0 v0 th0 th1.
    transitivity
      (v0 * Rtrigo_def.sin th0
         * (Rtrigo_def.sin th1 * Rtrigo_def.sin th1
            + Rtrigo_def.cos th1 * Rtrigo_def.cos th1)
       - M0 para * w0 * Rtrigo_def.cos th0
         * (Rtrigo_def.sin th1 * Rtrigo_def.sin th1
            + Rtrigo_def.cos th1 * Rtrigo_def.cos th1 - 1));
      [rewrite Hsc; ring | field; exact HL1].
Qed.

(** The truck driving straight ahead follows the dynamics, and its
    position moves at its speed along its heading. *)
Lemma straight_follows (t0v Tv : sx R) (n N M : nat) (w : list (vec3 R)) (t : R) :
  follows (straight n) (created_stage para0 rectangle t0v Tv n N M w) t.
Proof.
  assert (Hc : forall k c, (forall x, sig (straight n) k x = c) ->
                 derivable_pt_lim (sig (straight n) k) t 0).
  { intros k c Hk. apply (derivable_pt_lim_ext (fct_cte c));
      [intros y; symmetry; apply Hk | apply derivable_pt_lim_const]. }
  assert (E0 : forall k, (k =? 1 + n)%nat = false -> (k =? 6 + n)%nat = false ->
                 forall x, sig (straight n) k x = 0)
    by (intros k K1 K2 x; cbn [sig straight]; rewrite K1, K2; reflexivity).
  assert (S0 : sig (straight n) n t = 0)
    by (apply E0; apply Nat.eqb_neq; lia).
  assert (S3 : sig (straight n) (S (S (S n))) t = 0)
    by (apply E0; apply Nat.eqb_neq; lia).
  assert (S4 : sig (straight n) (S (S (S (S n)))) t = 0)
    by (apply E0; apply Nat.eqb_neq; lia).
  assert (S5 : sig (straight n) (S (S (S (S (S n))))) t = 0)
    by (apply E0; apply Nat.eqb_neq; lia).
  assert (S7 : sig (straight n) (S (S (S (S (S (S (S n))))))) t = 0)
    by (apply E0; apply Nat.eqb_neq; lia).
  assert (S6 : forall x, sig (straight n) (6 + n) x = 1).
  { intros x. cbn [sig straight].
    replace (6 + n =? 1 + n)%nat with false by (symmetry; apply Nat.eqb_neq; lia).
    rewrite Nat.eqb_refl. reflexivity. }
  assert (S1 : forall x, sig (straight n) (1 + n) x = x)
    by (intros x; cbn [sig straight]; rewrite Nat.eqb_refl; reflexivity).
  assert (S6' : forall x,
            sig (straight n) (S (S (S (S (S (S n)))))) x = 1) by exact S6.
  assert (S1' : forall x, sig (straight n) (S n) x = x) by exact S1.
  intros k d Hin. unfold created_stage in Hin. cbn [state_der] in Hin.
  destruct Hin as [[= <- <-] | [[= <- <-] | [[= <- <-] | [[= <- <-]
                  | [[= <- <-] | [[= <- <-] | []]]]]]];
    cbn [eval created_vars r_theta0 r_theta1 r_v0 r_delta0 sub mul div add
         R_scalar sx_scalar sx_trig sin cos tan R_trig];
    rewrite ?S0, ?S3, ?S4, ?S5, ?S7, ?(S6' t); unfold L0, L1, M0; cbn [para0 truck
      trailer1 veh_L veh_M];
    rewrite ?Rminus_diag, ?sin_0, ?cos_0, ?tan_0.
  - apply (derivable_pt_lim_value _ _ 0); [Lra.lra|].
    apply (Hc _ 0), E0; apply Nat.eqb_neq; lia.
  - apply (derivable_pt_lim_value _ _ 0); [Lra.lra|].
    apply (Hc _ 0), E0; apply Nat.eqb_neq; lia.
  - apply (derivable_pt_lim_value _ _ 1); [Lra.lra|].
    apply (derivable_pt_lim_ext id); [intros y; symmetry; apply S1'|].
    apply derivable_pt_lim_id.
  - apply (derivable_pt_lim_value _ _ 0); [Lra.lra|].
    apply (Hc _ 0), E0; apply Nat.eqb_neq; lia.
  - apply (Hc _ 1), S6'.
  - apply (Hc _ 0), E0; apply Nat.eqb_neq; lia.
Qed.

Lemma truck_rolls_along_heading_witness :
  L1 para0 <> 0 /\
  exists r o' stg,
    create_stage para0 rectangle (FreeTime 0) (FreeTime 1) 2 1 [] new_Ocp
    = Some (r, o') /\
    stages o' !! r_stage r = Some stg /\
    follows (straight 2) stg 0 /\
    derivable_pt_lim (fun x => eval (straight 2) x (r_x0 r)) 0
      (eval (straight 2) 0 (r_v0 r)
       * Rtrigo_def.cos (eval (straight 2) 0 (r_theta0 r))).
Proof.
  assert (HL1 : L1 para0 <> 0) by (cbn; Lra.lra).
  split; [exact HL1|].
  destruct (truck_rolls_along_heading para0 rectangle (FreeTime 0) (FreeTime 1)
              2 1 [] new_Ocp HL1) as (r & o' & stg & Hc & Hs & Hd).
  exists r, o', stg. split; [exact Hc|]. split; [exact Hs|].
  assert (Hf : follows (straight 2) stg 0).
  { rewrite create_stage_run in Hc. injection Hc as <- <-.
    cbn in Hs. injection Hs as <-. apply straight_follows. }
  split; [exact Hf | exact (proj1 (Hd _ _ Hf))].
Defined.

End KinematicsOnReals.

(* ===================================================================== *)
(** ** The further properties at concrete inputs *)
(* ===================================================================== *)

Module MoreOnReals.
Import Ideal Sample Stitched.
Local Open Scope R_scope.

(** Stitching a stage of two states to a stage of one raises. *)
Lemma stitch_stages_defined_witness :
  stages (store 2 1) !! 0%nat = Some (bare 2) /\
  stages (store 2 1) !! 1%nat = Some (bare 1) /\
  stitch_stages 0 1 (store 2 1) = None.
Proof.
  split; [reflexivity|]. split; [reflexivity|].
  apply (proj2 (stitch_stages_defined 0 1 (bare 2) (bare 1) (store 2 1)
                  eq_refl eq_refl)).
  cbn. lia.
Defined.

(** On the real numbers adding to 0 changes nothing. *)
Lemma junction_times_are_final_times_witness :
  (forall x : R, (of_Z 0 + x)%num = x) /\
  exists s1 s2 o stg1 stg2 t1 t2,
    problem para0 rectangle new_Ocp = Some ((s1, s2), o) /\
    stages o !! r_stage s1 = Some stg1 /\
    stages o !! r_stage s2 = Some stg2 /\
    junction_times (r_stage s1) (r_stage s2) o = Some ((t1, t2), o) /\
    forall (g : valuation R) (t : R),
      all_hold g t (ocp_constraints o) ->
      eval g t t1 = eval g t (tf stg1) /\
      eval g t t1 = eval g t (t0 stg2) /\
      eval g t t2 = eval g t (tf stg2).
Proof.
  assert (Hzero : forall x : R, (of_Z 0 + x)%num = x) by (intros x; cbn; Lra.lra).
  split; [exact Hzero|].
  exact (junction_times_are_final_times para0 rectangle Hzero).
Defined.

(** The simulation of [plan0] is one pass. *)
Lemma simulate_chains_integrator_witness :
  aligned plan0 /\
  exists s, simulate para0 unit tt hold plan0 = Some s /\
            length (calls s) = 1%nat.
Proof.
  split; [exact OnReals.plan0_aligned|].
  destruct (simulate_chains_integrator para0 unit tt hold plan0
              OnReals.plan0_aligned) as (s & Hs & Hn & _).
  exists s. auto.
Defined.

End MoreOnReals.
